(** * The oxlint JavaScript bridge: config loading and lazy subsystems

    A shallow embedding of [apps/oxlint/src-js/js_config.ts] and
    [apps/oxlint/src-js/cli.ts], and the properties of the bridge that
    follow from the code.

    JavaScript values are an inductive type; a function that may throw
    returns a [Completion]; module-level [let] bindings are fields of an
    explicit state that every wrapper threads. *)

From Stdlib Require Import Ascii.
From stdpp Require Import base option list sorting strings pretty gmap.

Local Set Warnings "-register-all,-notation-for-abbreviation".

(** ** JavaScript values *)

(** The values a config module can export, a promise can be rejected with,
    or [JSON.stringify] can be handed.  Numbers are the integers a
    double holds exactly and prints with all their digits (below [10^21]
    in absolute value); objects are ordered lists of own enumerable data
    properties with distinct string keys (no getters, no [toJSON], no
    cycles). [JError] is an
    [Error] instance: its [message] is an own but non-enumerable
    property. *)
Inductive JsValue : Type :=
  | JUndefined
  | JNull
  | JBool (b : bool)
  | JNum (n : Z)
  | JBigInt (n : Z)
  | JStr (s : string)
  | JSymbol (description : string)
  | JFunction (name : string)
  | JError (message : string)
  | JArr (elements : list JsValue)
  | JObj (properties : list (string * JsValue)).

(** The result of running code that may throw: [Returned a] is normal
    completion (for an [async] function, a promise fulfilled with [a]),
    [Thrown e] an exception (a promise rejected with [e]). *)
Inductive Completion (E A : Type) : Type :=
  | Returned (a : A)
  | Thrown (e : E).
Arguments Returned {E A} a.
Arguments Thrown {E A} e.

Definition bindC {E A B} (c : Completion E A) (k : A → Completion E B)
  : Completion E B :=
  match c with
  | Returned a => k a
  | Thrown e => Thrown e
  end.

(** [try { c } catch (err) { handler err }] *)
Definition tryCatch {E A} (c : Completion E A) (handler : E → Completion E A)
  : Completion E A :=
  match c with
  | Returned a => Returned a
  | Thrown e => handler e
  end.

Notation "x ←! c ; k" := (bindC c (λ x, k))
  (at level 20, c at level 100, k at level 200, right associativity,
   format "x  ←!  c ;  '/' k").

(** The [typeof] operator. *)
Definition typeof (v : JsValue) : string :=
  match v with
  | JUndefined => "undefined"
  | JNull => "object"
  | JBool _ => "boolean"
  | JNum _ => "number"
  | JBigInt _ => "bigint"
  | JStr _ => "string"
  | JSymbol _ => "symbol"
  | JFunction _ => "function"
  | JError _ | JArr _ | JObj _ => "object"
  end.

(** [v === null] *)
Definition isNull (v : JsValue) : bool :=
  match v with JNull => true | _ => false end.

(** [ToBoolean]: the falsy values are [undefined], [null], [false], [0],
    [0n] and the empty string. *)
Definition ToBoolean (v : JsValue) : bool :=
  match v with
  | JUndefined | JNull => false
  | JBool b => b
  | JNum n | JBigInt n => negb (n =? 0)%Z
  | JStr s => negb (String.eqb s EmptyString)
  | _ => true
  end.

(** ** [JSON.stringify] *)

Definition dquote : ascii := ascii_of_nat 34.
Definition backslash : ascii := ascii_of_nat 92.

Definition hexDigit (n : nat) : ascii :=
  ascii_of_nat (if (n <? 10)%nat then 48 + n else 87 + n)%nat.

(** One code unit of [QuoteJSONString]. *)
Definition quoteChar (c : ascii) : string :=
  let n := nat_of_ascii c in
  if (n =? 34)%nat then String backslash (String dquote EmptyString)
  else if (n =? 92)%nat then String backslash (String backslash EmptyString)
  else if (n =? 8)%nat then String backslash "b"
  else if (n =? 9)%nat then String backslash "t"
  else if (n =? 10)%nat then String backslash "n"
  else if (n =? 12)%nat then String backslash "f"
  else if (n =? 13)%nat then String backslash "r"
  else if (n <? 32)%nat then
    String backslash
      ("u00" +:+ String (hexDigit (n / 16)) (String (hexDigit (n mod 16)) EmptyString))
  else String c EmptyString.

Fixpoint quoteChars (s : string) : string :=
  match s with
  | EmptyString => EmptyString
  | String c rest => quoteChar c +:+ quoteChars rest
  end.

Definition QuoteJSONString (s : string) : string :=
  String dquote (quoteChars s +:+ String dquote EmptyString).

(** Joins the serialized members with commas. *)
Fixpoint joinComma (parts : list string) : string :=
  match parts with
  | [] => EmptyString
  | [p] => p
  | p :: rest => p +:+ "," +:+ joinComma rest
  end.

(** [SerializeJSONProperty]: [None] is the [undefined] that makes the
    caller drop an object member or write [null] for an array element;
    a BigInt throws a [TypeError]. *)
Fixpoint SerializeJSONProperty (v : JsValue) : Completion JsValue (option string) :=
  match v with
  | JUndefined | JSymbol _ | JFunction _ => Returned None
  | JNull => Returned (Some "null")
  | JBool b => Returned (Some (if b then "true" else "false"))
  | JNum n => Returned (Some (pretty n))
  | JBigInt _ => Thrown (JError "Do not know how to serialize a BigInt")
  | JStr s => Returned (Some (QuoteJSONString s))
  | JError _ => Returned (Some "{}")
  | JArr elements =>
      parts ←! (fix serializeElements (l : list JsValue)
                  : Completion JsValue (list string) :=
                  match l with
                  | [] => Returned []
                  | x :: rest =>
                      o ←! SerializeJSONProperty x;
                      tl ←! serializeElements rest;
                      Returned (default "null" o :: tl)
                  end) elements;
      Returned (Some ("[" +:+ joinComma parts +:+ "]"))
  | JObj properties =>
      parts ←! (fix serializeMembers (l : list (string * JsValue))
                  : Completion JsValue (list string) :=
                  match l with
                  | [] => Returned []
                  | (k, x) :: rest =>
                      o ←! SerializeJSONProperty x;
                      tl ←! serializeMembers rest;
                      Returned
                        (match o with
                         | Some s => (QuoteJSONString k +:+ ":" +:+ s) :: tl
                         | None => tl
                         end)
                  end) properties;
      Returned (Some ("{" +:+ joinComma parts +:+ "}"))
  end.

(** The two inner loops of [SerializeJSONProperty], by name. *)
Fixpoint serializeElements (l : list JsValue) : Completion JsValue (list string) :=
  match l with
  | [] => Returned []
  | x :: rest =>
      o ←! SerializeJSONProperty x;
      tl ←! serializeElements rest;
      Returned (default "null" o :: tl)
  end.

Fixpoint serializeMembers (l : list (string * JsValue)) : Completion JsValue (list string) :=
  match l with
  | [] => Returned []
  | (k, x) :: rest =>
      o ←! SerializeJSONProperty x;
      tl ←! serializeMembers rest;
      Returned
        (match o with
         | Some s => (QuoteJSONString k +:+ ":" +:+ s) :: tl
         | None => tl
         end)
  end.

(** Modelled from the spec: [JSONStringify] is imported from
    [utils/globals.ts], which is not among the sources. The spec has the
    result "always serialized as JSON text", so it is the built-in
    [JSON.stringify] with one argument: a string, or [undefined] for a
    value that has no JSON text. *)
Definition JSONStringify (v : JsValue) : Completion JsValue JsValue :=
  o ←! SerializeJSONProperty v;
  Returned (match o with Some s => JStr s | None => JUndefined end).

(** ** [js_config.ts] *)

(** A module namespace object, as far as [loadJsConfigs] reads it:
    [module.default], [undefined] when the module has no default export. *)
Record JsModule : Type := { module_default : JsValue }.

(** An element of the array [Promise.allSettled] resolves to. *)
Inductive SettledResult : Type :=
  | Fulfilled (value : JsValue)
  | Rejected (reason : JsValue).

(** [Promise.allSettled] over promises that have all settled: it waits for
    every outcome, keeps their order and never rejects. *)
Definition allSettled (promises : list (Completion JsValue JsValue))
  : list SettledResult :=
  map (λ p, match p with
            | Returned v => Fulfilled v
            | Thrown e => Rejected e
            end) promises.

(** The object literal [{ path, config }] of interface [JsConfigResult]. *)
Definition JsConfigResult (path : string) (config : JsValue) : JsValue :=
  JObj [("path", JStr path); ("config", config)].

(** The object literal [{ path: p, error: e }] pushed to [errors]. *)
Definition ConfigFailure (p : JsValue) (e : string) : JsValue :=
  JObj [("path", p); ("error", JStr e)].

(** Indexing a string array, [paths[i]]: [undefined] out of range. *)
Definition indexPaths (paths : list string) (i : nat) : JsValue :=
  from_option JStr JUndefined (paths !! i).

(** The message of the [Error] thrown for a default export that is not
    an object: the template literal of line 44. *)
Definition notAnObjectMessage (path : string) : string :=
  "Config at " +:+ path +:+ " must export a default object".

Section JsConfig.

(** [getErrorMessage] of [utils/utils.ts]: turns whatever was thrown
    into a message. The file is not among the sources, so the function is
    a parameter; the facts about it that the bridge's contract relies on
    are hypotheses of the theorems that need them. *)
Variable getErrorMessage : JsValue → string.

(** The host runtime for one path: what [new URL(`file://${path}`)]
    followed by [await import(fileUrl.href)] yields, the module namespace
    or the value thrown. Within one batch the module cache makes this a
    function of the path. *)
Variable importFile : string → Completion JsValue JsModule.

(** The [async (path) => ...] callback of [paths.map]. *)
Definition loadConfig (path : string) : Completion JsValue JsValue :=
  module ←! importFile path;
  let config := module_default module in
  if negb (String.eqb (typeof config) "object") || isNull config then
    Thrown (JError (notAnObjectMessage path))
  else
    Returned (JsConfigResult path config).

(** The [for] loop over [results], entered at index [i] with [rest] the
    results from [i] on. *)
Fixpoint collectResults (paths : list string) (rest : list SettledResult)
    (i : nat) (successes errors : list JsValue)
  : list JsValue * list JsValue :=
  match rest with
  | [] => (successes, errors)
  | Fulfilled value :: rest' =>
      collectResults paths rest' (S i) (successes ++ [value]) errors
  | Rejected reason :: rest' =>
      collectResults paths rest' (S i) successes
        (errors ++ [ConfigFailure (indexPaths paths i) (getErrorMessage reason)])
  end.

(** [successes] and [errors] when the loop is left. *)
Definition collected (paths : list string) : list JsValue * list JsValue :=
  let results := allSettled (map loadConfig paths) in
  collectResults paths results 0 [] [].

(** The body of the [try] block. *)
Definition loadJsConfigsTry (paths : list string) : Completion JsValue JsValue :=
  let '(successes, errors) := collected paths in
  if (0 <? length errors)%nat then
    JSONStringify (JObj [("Failures", JArr errors)])
  else
    JSONStringify (JObj [("Success", JArr successes)]).

Definition loadJsConfigs (paths : list string) : Completion JsValue JsValue :=
  tryCatch (loadJsConfigsTry paths)
    (λ err, JSONStringify (JObj [("Error", JStr (getErrorMessage err))])).

(** The two arrays, read off the paths: what each successful path
    contributes to [successes] and each failing one to [errors]. *)
Definition successesOf (paths : list string) : list JsValue :=
  omap (λ p, match loadConfig p with
             | Returned v => Some v
             | Thrown _ => None
             end) paths.

Definition failuresOf (paths : list string) : list JsValue :=
  omap (λ p, match loadConfig p with
             | Returned _ => None
             | Thrown e => Some (ConfigFailure (JStr p) (getErrorMessage e))
             end) paths.

End JsConfig.

(** *** [utils/utils.ts] *)

Module Utils.

(** Modelled from the spec: [getErrorMessage] is imported from
    [utils/utils.ts], which is not among the sources. The spec has every
    failure reported "with a non-empty message" and the ill-shaped export
    reported with "a descriptive message including the path", which is
    the message of the [Error] thrown for it: the message of an [Error]
    that has one, and a fixed text for anything else that was thrown. *)
Definition getErrorMessage (err : JsValue) : string :=
  match err with
  | JError message => if String.eqb message "" then "Unknown error" else message
  | _ => "Unknown error"
  end.

End Utils.

(** *** The three result shapes, as JSON texts *)

Definition SuccessText (entries : list JsValue) (text : string) : Prop :=
  JSONStringify (JObj [("Success", JArr entries)]) = Returned (JStr text).

Definition FailuresText (entries : list JsValue) (text : string) : Prop :=
  JSONStringify (JObj [("Failures", JArr entries)]) = Returned (JStr text).

Definition ErrorText (message : string) (text : string) : Prop :=
  JSONStringify (JObj [("Error", JStr message)]) = Returned (JStr text).

(** [sub] occurs in [s]. *)
Definition contains (s sub : string) : Prop :=
  ∃ before after, s = before +:+ sub +:+ after.

(** ** [cli.ts] *)

(** How a bridge call can fail: the fatal assertion of
    [debugAssertIsNonNull], or an exception of the code it delegates to. *)
Inductive Failure : Type :=
  | AssertionFailed
  | Exception (e : JsValue).

(** Modelled from the spec: [debugAssertIsNonNull] is imported from
    [utils/asserts.ts], which is not among the sources. The spec has a
    violated precondition "diagnosed via an assertion failure, not a
    recoverable result": the assertion fails on [null] and otherwise
    narrows the binding to the function it holds. *)
Definition debugAssertIsNonNull {A : Type} (value : option A) : Completion Failure A :=
  match value with
  | Some a => Returned a
  | None => Thrown AssertionFailed
  end.

Definition liftJs {A : Type} (c : Completion JsValue A) : Completion Failure A :=
  match c with
  | Returned a => Returned a
  | Thrown e => Thrown (Exception e)
  end.

(** What a wrapper that returns a promise hands back: a promise that
    waits for the dynamic import, or one settled by the delegate. *)
Inductive PromiseOf (A : Type) : Type :=
  | AwaitingImport
  | Settled (c : Completion Failure A).
Arguments AwaitingImport {A}.
Arguments Settled {A} c.

(** A [.then] callback registered on a dynamic import, with the
    arguments its closure captured. *)
Inductive PendingImport : Type :=
  | ThenLoadPlugin (path : string) (pluginName : option string) (pluginNameIsAlias : bool)
  | ThenCreateWorkspace (workspace : string).

Definition pluginsSpecifier : string := "./plugins/index.ts".
Definition workspaceSpecifier : string := "./workspace/index.ts".

Section Cli.

(** The state of everything the lazily loaded modules own. A call of one
    of their exports is a transition of this state that returns or
    throws. *)
Context {Host : Type}.

Definition LoadPluginFn : Type :=
  string → option string → bool → Host → Completion JsValue string * Host.
Definition SetupRuleConfigsFn : Type :=
  string → Host → Completion JsValue (option string) * Host.
Definition LintFileFn : Type :=
  string → Z → option (list Byte.byte) → list Z → list Z → string → string →
  Host → Completion JsValue (option string) * Host.
Definition CreateWorkspaceFn : Type :=
  string → Host → Completion JsValue unit * Host.
Definition DestroyWorkspaceFn : Type :=
  string → Host → Completion JsValue unit * Host.

(** The exports of [./plugins/index.ts] and [./workspace/index.ts] that
    [cli.ts] destructures. *)
Record PluginsModule : Type := {
  pm_loadPlugin : LoadPluginFn;
  pm_lintFile : LintFileFn;
  pm_setupRuleConfigs : SetupRuleConfigsFn;
}.

Record WorkspaceModule : Type := {
  wm_createWorkspace : CreateWorkspaceFn;
  wm_destroyWorkspace : DestroyWorkspaceFn;
}.

(** The five module-level [let] bindings, [None] for [null]. *)
Record Bindings : Type := {
  loadPlugin : option LoadPluginFn;
  setupRuleConfigs : option SetupRuleConfigsFn;
  lintFile : option LintFileFn;
  createWorkspace : option CreateWorkspaceFn;
  destroyWorkspace : option DestroyWorkspaceFn;
}.

(** The bridge: its bindings, the state behind the loaded modules, the
    specifiers of the dynamic imports performed so far, and the imports
    whose [.then] callback has not run yet. *)
Record World : Type := {
  bindings : Bindings;
  host : Host;
  imports : list string;
  pending : list PendingImport;
}.

Definition initialBindings : Bindings :=
  {| loadPlugin := None; setupRuleConfigs := None; lintFile := None;
     createWorkspace := None; destroyWorkspace := None |}.

Definition initialWorld (h : Host) : World :=
  {| bindings := initialBindings; host := h; imports := []; pending := [] |}.

(** [import(specifier).then(callback)]: the import starts now, the
    callback is queued. *)
Definition startImport (specifier : string) (callback : PendingImport) (w : World) : World :=
  {| bindings := bindings w; host := host w;
     imports := imports w ++ [specifier];
     pending := pending w ++ [callback] |}.

Definition withHost (w : World) (h : Host) : World :=
  {| bindings := bindings w; host := h; imports := imports w; pending := pending w |}.

Definition withBindings (w : World) (b : Bindings) : World :=
  {| bindings := b; host := host w; imports := imports w; pending := pending w |}.

(** Calls the function a binding holds on the host state. *)
Definition invoke {A : Type} (f : Host → Completion JsValue A * Host) (w : World)
  : World * Completion Failure A :=
  let '(c, h) := f (host w) in (withHost w h, liftJs c).

(** [({ createWorkspace, destroyWorkspace } = mod)] *)
Definition bindWorkspace (ns : WorkspaceModule) (b : Bindings) : Bindings :=
  {| loadPlugin := loadPlugin b; setupRuleConfigs := setupRuleConfigs b;
     lintFile := lintFile b;
     createWorkspace := Some (wm_createWorkspace ns);
     destroyWorkspace := Some (wm_destroyWorkspace ns) |}.

(** [({ loadPlugin, lintFile, setupRuleConfigs } = mod)] *)
Definition bindPlugins (ns : PluginsModule) (b : Bindings) : Bindings :=
  {| loadPlugin := Some (pm_loadPlugin ns);
     setupRuleConfigs := Some (pm_setupRuleConfigs ns);
     lintFile := Some (pm_lintFile ns);
     createWorkspace := createWorkspace b;
     destroyWorkspace := destroyWorkspace b |}.

(** Calls a binding that the preceding assignment or assertion has made
    non-null. *)
Definition callBinding {A : Type} (binding : option (Host → Completion JsValue A * Host))
    (w : World) : World * Completion Failure A :=
  match debugAssertIsNonNull binding with
  | Returned f => invoke f w
  | Thrown e => (w, Thrown e)
  end.

Definition createWorkspaceWrapper (workspace : string) (w : World)
  : World * PromiseOf unit :=
  match createWorkspace (bindings w) with
  | None => (startImport workspaceSpecifier (ThenCreateWorkspace workspace) w, AwaitingImport)
  | Some _ =>
      let '(w', c) :=
        callBinding (option_map (λ f, f workspace) (createWorkspace (bindings w))) w in
      (w', Settled c)
  end.

(** The callback [(ns) => { ...; return createWorkspace(workspace); }]. *)
Definition createWorkspaceThen (ns : WorkspaceModule) (workspace : string) (w : World)
  : World * Completion Failure unit :=
  let w1 := withBindings w (bindWorkspace ns (bindings w)) in
  callBinding (option_map (λ f, f workspace) (createWorkspace (bindings w1))) w1.

Definition destroyWorkspaceWrapper (workspace : string) (w : World)
  : World * Completion Failure unit :=
  callBinding (option_map (λ f, f workspace) (destroyWorkspace (bindings w))) w.

Definition loadPluginWrapper (path : string) (pluginName : option string)
    (pluginNameIsAlias : bool) (w : World) : World * PromiseOf string :=
  match loadPlugin (bindings w) with
  | None =>
      (startImport pluginsSpecifier (ThenLoadPlugin path pluginName pluginNameIsAlias) w,
       AwaitingImport)
  | Some _ =>
      let '(w', c) :=
        callBinding
          (option_map (λ f, f path pluginName pluginNameIsAlias) (loadPlugin (bindings w))) w in
      (w', Settled c)
  end.

(** The callback [(ns) => { ...; return loadPlugin(path, pluginName, pluginNameIsAlias); }]. *)
Definition loadPluginThen (ns : PluginsModule) (path : string) (pluginName : option string)
    (pluginNameIsAlias : bool) (w : World) : World * Completion Failure string :=
  let w1 := withBindings w (bindPlugins ns (bindings w)) in
  callBinding
    (option_map (λ f, f path pluginName pluginNameIsAlias) (loadPlugin (bindings w1))) w1.

Definition setupRuleConfigsWrapper (optionsJSON : string) (w : World)
  : World * Completion Failure (option string) :=
  callBinding (option_map (λ f, f optionsJSON) (setupRuleConfigs (bindings w))) w.

Definition lintFileWrapper (filePath : string) (bufferId : Z)
    (buffer : option (list Byte.byte)) (ruleIds optionsIds : list Z)
    (settingsJSON globalsJSON : string) (w : World)
  : World * Completion Failure (option string) :=
  callBinding
    (option_map
       (λ f, f filePath bufferId buffer ruleIds optionsIds settingsJSON globalsJSON)
       (lintFile (bindings w))) w.

(** *** The bridge as a machine driven by the native side and the loader *)

(** What can happen next: the native side calls one of the five
    callbacks, or the [k]-th pending dynamic import settles. *)
Inductive Event : Type :=
  | CallLoadPlugin (path : string) (pluginName : option string) (pluginNameIsAlias : bool)
  | CallSetupRuleConfigs (optionsJSON : string)
  | CallLintFile (filePath : string) (bufferId : Z) (buffer : option (list Byte.byte))
      (ruleIds optionsIds : list Z) (settingsJSON globalsJSON : string)
  | CallCreateWorkspace (workspace : string)
  | CallDestroyWorkspace (workspace : string)
  | ImportFulfils (k : nat)
  | ImportRejects (k : nat) (reason : JsValue).

(** What the event hands back to the native side. *)
Inductive Response : Type :=
  | LoadPluginReturns (p : PromiseOf string)
  | SetupRuleConfigsReturns (c : Completion Failure (option string))
  | LintFileReturns (c : Completion Failure (option string))
  | CreateWorkspaceReturns (p : PromiseOf unit)
  | DestroyWorkspaceReturns (c : Completion Failure unit)
  | LoadPluginSettles (c : Completion Failure string)
  | CreateWorkspaceSettles (c : Completion Failure unit)
  | NothingPending.

Definition dropPending (k : nat) (w : World) : World :=
  {| bindings := bindings w; host := host w; imports := imports w;
     pending := delete k (pending w) |}.

(** The namespaces the two specifiers resolve to. *)
Variable pluginsIndex : PluginsModule.
Variable workspaceIndex : WorkspaceModule.

Definition step (ev : Event) (w : World) : World * Response :=
  match ev with
  | CallLoadPlugin path pluginName pluginNameIsAlias =>
      let '(w', p) := loadPluginWrapper path pluginName pluginNameIsAlias w in
      (w', LoadPluginReturns p)
  | CallSetupRuleConfigs optionsJSON =>
      let '(w', c) := setupRuleConfigsWrapper optionsJSON w in
      (w', SetupRuleConfigsReturns c)
  | CallLintFile filePath bufferId buffer ruleIds optionsIds settingsJSON globalsJSON =>
      let '(w', c) :=
        lintFileWrapper filePath bufferId buffer ruleIds optionsIds settingsJSON globalsJSON w in
      (w', LintFileReturns c)
  | CallCreateWorkspace workspace =>
      let '(w', p) := createWorkspaceWrapper workspace w in
      (w', CreateWorkspaceReturns p)
  | CallDestroyWorkspace workspace =>
      let '(w', c) := destroyWorkspaceWrapper workspace w in
      (w', DestroyWorkspaceReturns c)
  | ImportFulfils k =>
      match pending w !! k with
      | Some (ThenLoadPlugin path pluginName pluginNameIsAlias) =>
          let '(w', c) :=
            loadPluginThen pluginsIndex path pluginName pluginNameIsAlias (dropPending k w) in
          (w', LoadPluginSettles c)
      | Some (ThenCreateWorkspace workspace) =>
          let '(w', c) := createWorkspaceThen workspaceIndex workspace (dropPending k w) in
          (w', CreateWorkspaceSettles c)
      | None => (w, NothingPending)
      end
  | ImportRejects k reason =>
      match pending w !! k with
      | Some (ThenLoadPlugin _ _ _) =>
          (dropPending k w, LoadPluginSettles (Thrown (Exception reason)))
      | Some (ThenCreateWorkspace _) =>
          (dropPending k w, CreateWorkspaceSettles (Thrown (Exception reason)))
      | None => (w, NothingPending)
      end
  end.

(** The world after a sequence of events. *)
Definition run (events : list Event) (w : World) : World :=
  foldl (λ w ev, fst (step ev w)) w events.

(** [binding === null] *)
Definition unset {A : Type} (binding : option A) : bool :=
  match binding with
  | None => true
  | Some _ => false
  end.

(** The dynamic imports an event starts in world [w]. *)
Definition importsStartedBy (ev : Event) (w : World) : list string :=
  match ev with
  | CallLoadPlugin _ _ _ =>
      if unset (loadPlugin (bindings w)) then [pluginsSpecifier] else []
  | CallCreateWorkspace _ =>
      if unset (createWorkspace (bindings w)) then [workspaceSpecifier] else []
  | _ => []
  end.

Definition isImportFulfils (ev : Event) : bool :=
  match ev with
  | ImportFulfils _ => true
  | _ => false
  end.

(** The lint call that sends content for buffer [bufferId]. *)
Definition populates (bufferId : Z) (ev : Event) : bool :=
  match ev with
  | CallLintFile _ id (Some _) _ _ _ _ => bool_decide (id = bufferId)
  | _ => false
  end.

(** The states of the bindings of one subsystem: all [null], or all bound
    to the exports of its module. *)
Definition pluginsUnloaded (b : Bindings) : Prop :=
  loadPlugin b = None ∧ lintFile b = None ∧ setupRuleConfigs b = None.

Definition pluginsLoaded (b : Bindings) : Prop :=
  loadPlugin b = Some (pm_loadPlugin pluginsIndex) ∧
  lintFile b = Some (pm_lintFile pluginsIndex) ∧
  setupRuleConfigs b = Some (pm_setupRuleConfigs pluginsIndex).

Definition workspaceUnloaded (b : Bindings) : Prop :=
  createWorkspace b = None ∧ destroyWorkspace b = None.

Definition workspaceLoaded (b : Bindings) : Prop :=
  createWorkspace b = Some (wm_createWorkspace workspaceIndex) ∧
  destroyWorkspace b = Some (wm_destroyWorkspace workspaceIndex).

Definition wellBound (b : Bindings) : Prop :=
  (pluginsUnloaded b ∨ pluginsLoaded b) ∧ (workspaceUnloaded b ∨ workspaceLoaded b).

(** *** The module body after the wrappers *)

(** [process], as far as the module writes it. *)
Record Process : Type := { exitCode : option Z }.

(** [const success = await lint(...); if (!success) process.exitCode = 1;]
    where [lintSettled] is what the promise of the native [lint] settled
    to. *)
Definition cliMain (lintSettled : Completion JsValue JsValue) (proc : Process)
  : Completion JsValue Process :=
  success ←! lintSettled;
  Returned (if negb (ToBoolean success) then {| exitCode := Some 1%Z |} else proc).

End Cli.

Arguments LoadPluginFn Host : clear implicits.
Arguments SetupRuleConfigsFn Host : clear implicits.
Arguments LintFileFn Host : clear implicits.
Arguments CreateWorkspaceFn Host : clear implicits.
Arguments DestroyWorkspaceFn Host : clear implicits.
Arguments PluginsModule Host : clear implicits.
Arguments WorkspaceModule Host : clear implicits.
Arguments Bindings Host : clear implicits.
Arguments World Host : clear implicits.

(** ** The plugin subsystem behind [lintFile] *)

Module PluginsSpec.
Section Model.

(** What the loaded modules keep besides the buffer cache: the plugin
    registry, the rule options table, the workspaces. *)
Context {Registry : Type}.

(** Modelled from the spec: [plugins/index.ts] is not among the sources.
    The Buffer Cache is the "process-wide mapping from small integer
    identifiers to previously-transferred file contents". *)
Record PluginsHost : Type := {
  buffers : gmap Z (list Byte.byte);
  registry : Registry;
}.

(** Modelled from the spec: the three outcomes of linting a file, "null
    (no findings, no error)", "a JSON-encoded array of diagnostic
    records", "a JSON-encoded single error description". *)
Inductive LintOutcome : Type :=
  | NoFindings
  | Diagnostics (records : string)
  | LintError (description : string).

(** The encoding of an outcome as [string | null], the rule engine and the
    registry operations are outside the bridge. *)
Variable encodeOutcome : LintOutcome → option string.
Variable runRules :
  string → list Byte.byte → list Z → list Z → string → string → Registry
  → LintOutcome.
Variable noBufferDescription : Z → string.
Variable registryLoadPlugin :
  string → option string → bool → Registry → Completion JsValue string * Registry.
Variable registrySetupRuleConfigs :
  string → Registry → Completion JsValue (option string) * Registry.
Variable registryCreateWorkspace : string → Registry → Completion JsValue unit * Registry.
Variable registryDestroyWorkspace : string → Registry → Completion JsValue unit * Registry.

Definition onRegistry {A : Type} (f : Registry → Completion JsValue A * Registry)
    (h : PluginsHost) : Completion JsValue A * PluginsHost :=
  let '(c, r) := f (registry h) in
  (c, {| buffers := buffers h; registry := r |}).

(** Modelled from the spec: [lintFile] of [plugins/index.ts]. A call with
    content stores it under [bufferId], overwriting what was there, and
    lints it; a call without content means "reuse whatever is cached for
    this ID", "which fails if nothing is cached for that ID", the failure
    being an error result. *)
Definition lintFile (filePath : string) (bufferId : Z) (buffer : option (list Byte.byte))
    (ruleIds optionsIds : list Z) (settingsJSON globalsJSON : string) (h : PluginsHost)
  : Completion JsValue (option string) * PluginsHost :=
  match buffer with
  | Some content =>
      (Returned (encodeOutcome
         (runRules filePath content ruleIds optionsIds settingsJSON globalsJSON (registry h))),
       {| buffers := <[bufferId := content]> (buffers h); registry := registry h |})
  | None =>
      match buffers h !! bufferId with
      | Some content =>
          (Returned (encodeOutcome
             (runRules filePath content ruleIds optionsIds settingsJSON globalsJSON
                (registry h))), h)
      | None => (Returned (encodeOutcome (LintError (noBufferDescription bufferId))), h)
      end
  end.

(** Modelled from the spec: the other exports work on the registry and
    leave the buffer cache alone ("entries are created/overwritten by each
    lint call; no explicit eviction"). *)
Definition pluginsIndex : PluginsModule PluginsHost :=
  {| pm_loadPlugin := λ path pluginName pluginNameIsAlias,
       onRegistry (registryLoadPlugin path pluginName pluginNameIsAlias);
     pm_lintFile := lintFile;
     pm_setupRuleConfigs := λ optionsJSON, onRegistry (registrySetupRuleConfigs optionsJSON) |}.

Definition workspaceIndex : WorkspaceModule PluginsHost :=
  {| wm_createWorkspace := λ workspace, onRegistry (registryCreateWorkspace workspace);
     wm_destroyWorkspace := λ workspace, onRegistry (registryDestroyWorkspace workspace) |}.

(** The host before anything was sent. *)
Definition emptyHost (r : Registry) : PluginsHost := {| buffers := ∅; registry := r |}.

End Model.

Arguments PluginsHost Registry : clear implicits.

End PluginsSpec.

(** ** A sample host *)

(** One possible [getErrorMessage]: the message of an [Error] that has
    one, and a fixed text for anything else. *)
Definition sampleGetErrorMessage (v : JsValue) : string :=
  match v with
  | JError message => if String.eqb message "" then "Unknown error" else message
  | _ => "Unknown error"
  end.

(** A file system with four config files: one exports an object, one a
    string, one an object that holds a BigInt, one the empty object; any
    other path cannot be imported. *)
Definition sampleImportFile (path : string) : Completion JsValue JsModule :=
  if String.eqb path "/a/good.config.ts" then
    Returned {| module_default := JObj [("rules", JObj [("no-debugger", JStr "error")])] |}
  else if String.eqb path "/b/bad.config.ts" then
    Returned {| module_default := JStr "not a config" |}
  else if String.eqb path "/c/bigint.config.ts" then
    Returned {| module_default := JObj [("maxWarnings", JBigInt 10)] |}
  else if String.eqb path "/d/empty.config.ts" then
    Returned {| module_default := JObj [] |}
  else
    Thrown (JError ("Cannot find module " +:+ path)).

(** The text [{"Success":[]}]. *)
Definition emptySuccessText : string :=
  "{" +:+ String dquote "Success" +:+ String dquote ":[]}".

(** ** A sample pair of lazily loaded modules *)

(** Modules whose state is the log of the calls they received. *)
Definition loggingPlugins : PluginsModule (list string) :=
  {| pm_loadPlugin := λ path _ _ log,
       (Returned ("plugin " +:+ path), log ++ ["loadPlugin " +:+ path]);
     pm_lintFile := λ filePath _ _ _ _ _ _ log,
       (Returned None, log ++ ["lintFile " +:+ filePath]);
     pm_setupRuleConfigs := λ _ log, (Returned None, log ++ ["setupRuleConfigs"]) |}.

Definition loggingWorkspace : WorkspaceModule (list string) :=
  {| wm_createWorkspace := λ workspace log,
       (Returned (), log ++ ["createWorkspace " +:+ workspace]);
     wm_destroyWorkspace := λ workspace log,
       (Returned (), log ++ ["destroyWorkspace " +:+ workspace]) |}.

(** ** A sample plugin subsystem *)

(** A rule engine without a registry that reports on any non-empty file. *)
Definition sampleEncodeOutcome (o : PluginsSpec.LintOutcome) : option string :=
  match o with
  | PluginsSpec.NoFindings => None
  | PluginsSpec.Diagnostics records => Some records
  | PluginsSpec.LintError description => Some description
  end.

Definition sampleRunRules (filePath : string) (content : list Byte.byte)
    (ruleIds optionsIds : list Z) (settingsJSON globalsJSON : string) (r : unit)
  : PluginsSpec.LintOutcome :=
  match content with
  | [] => PluginsSpec.NoFindings
  | _ => PluginsSpec.Diagnostics ("[" +:+ pretty (length content) +:+ "]")
  end.

Definition sampleNoBufferDescription (bufferId : Z) : string :=
  "no buffer " +:+ pretty bufferId.

Definition samplePluginsIndex : PluginsModule (PluginsSpec.PluginsHost unit) :=
  PluginsSpec.pluginsIndex sampleEncodeOutcome sampleRunRules sampleNoBufferDescription
    (λ path _ _ r, (Returned path, r)) (λ _ r, (Returned None, r)).

Definition sampleWorkspaceIndex : WorkspaceModule (PluginsSpec.PluginsHost unit) :=
  PluginsSpec.workspaceIndex (λ _ r, (Returned (), r)) (λ _ r, (Returned (), r)).

(** ** More of the bridge machine *)

Definition isLoadPluginCall (ev : Event) : bool :=
  match ev with
  | CallLoadPlugin _ _ _ => true
  | _ => false
  end.

Definition isCreateWorkspaceCall (ev : Event) : bool :=
  match ev with
  | CallCreateWorkspace _ => true
  | _ => false
  end.

Definition isThenLoadPlugin (callback : PendingImport) : bool :=
  match callback with
  | ThenLoadPlugin _ _ _ => true
  | ThenCreateWorkspace _ => false
  end.

(** How often [specifier] was imported dynamically. *)
Definition importCount (specifier : string) (log : list string) : nat :=
  length (filter (λ s, s = specifier) log).

(** ** The Prettier plugin of oxfmt *)

(** [object[key]] on a plain object used as [Record<string, unknown>]:
    [undefined] for a key it does not have. *)
Definition getProperty (object : gmap string JsValue) (key : string) : JsValue :=
  default JUndefined (object !! key).

(** [key in object] *)
Definition hasProperty (object : gmap string JsValue) (key : string) : bool :=
  match object !! key with
  | Some _ => true
  | None => false
  end.

(** [v === s] for a string [s]. *)
Definition strictEqualsString (v : JsValue) (s : string) : bool :=
  match v with
  | JStr t => String.eqb t s
  | _ => false
  end.

(** [a ?? b] *)
Definition nullishCoalesce (a b : JsValue) : JsValue :=
  match a with
  | JUndefined | JNull => b
  | _ => a
  end.

Definition serializableKeys : list string :=
  ["useTabs"; "tabWidth"; "printWidth"; "singleQuote"; "jsxSingleQuote"; "semi";
   "endOfLine"; "trailingComma"; "bracketSpacing"; "bracketSameLine"; "arrowParens";
   "quoteProps"; "_tailwindPluginEnabled"].

(** [type SourceType = "js" | "jsx" | "ts" | "tsx"] *)
Inductive SourceType : Type := Js | Jsx | Ts | Tsx.

Definition newline : ascii := ascii_of_nat 10.

(** [str.split("\n")]: the pieces between the line feeds, at least one. *)
Fixpoint splitLines (str : string) : list string :=
  match str with
  | EmptyString => [EmptyString]
  | String c rest =>
      if Ascii.eqb c newline then EmptyString :: splitLines rest
      else
        match splitLines rest with
        | line :: lines => String c line :: lines
        | [] => [String c EmptyString]
        end
  end.

(** Prettier's [Doc], as far as the printer builds it: a string, the
    [hardline] command, or an array of docs. *)
Inductive Doc : Type :=
  | DocString (s : string)
  | DocHardline
  | DocArray (parts : list Doc).

(** [doc.builders.join(separator, docs)]: the docs with the separator
    between each two of them. *)
Fixpoint join (separator : Doc) (docs : list Doc) : list Doc :=
  match docs with
  | [] => []
  | [d] => [d]
  | d :: rest => d :: separator :: join separator rest
  end.

(** [oxfmtPrinter.print] on the node, which is the formatted string. *)
Definition print (node : string) : Doc :=
  let str := node in
  let lines := splitLines str in
  if (length lines =? 1)%nat then DocString str
  else DocArray (join DocHardline (map DocString lines)).

(** The text a doc stands for when nothing is indented: a hard line is a
    line feed. *)
Fixpoint docText (d : Doc) : string :=
  match d with
  | DocString s => s
  | DocHardline => String newline EmptyString
  | DocArray parts =>
      (fix partsText (l : list Doc) : string :=
         match l with
         | [] => EmptyString
         | x :: rest => docText x +:+ partsText rest
         end) parts
  end.

Fixpoint partsText (l : list Doc) : string :=
  match l with
  | [] => EmptyString
  | x :: rest => docText x +:+ partsText rest
  end.

(** The [hardline]s among the parts of an array. *)
Fixpoint countHardlines (parts : list Doc) : nat :=
  match parts with
  | [] => 0
  | DocHardline :: rest => S (countHardlines rest)
  | _ :: rest => countHardlines rest
  end.

(** [lines.join("\n")]: the lines with a line feed between each two. *)
Fixpoint joinNewline (lines : list string) : string :=
  match lines with
  | [] => EmptyString
  | [line] => line
  | line :: rest => line +:+ String newline (joinNewline rest)
  end.

(** The line feeds of a string. *)
Fixpoint countNewlines (s : string) : nat :=
  match s with
  | EmptyString => 0
  | String c rest => (if Ascii.eqb c newline then 1 else 0) + countNewlines rest
  end.

Section PrettierPlugin.

(** The built-in [JSON.parse]: the value parsed, or the [SyntaxError]
    thrown. *)
Variable JSONParse : JsValue → Completion JsValue JsValue.

(** [restoreJsonOption]; the object [target] it writes to is returned. *)
Definition restoreJsonOption (source target : gmap string JsValue)
    (jsonKey resultKey : string) : gmap string JsValue :=
  let jsonValue := getProperty source jsonKey in
  if negb (String.eqb (typeof jsonValue) "string") || strictEqualsString jsonValue "" then
    target
  else
    match JSONParse jsonValue with
    | Returned parsed => <[resultKey := parsed]> target
    | Thrown _ => target
    end.

Definition extractSerializableOptions (options : gmap string JsValue)
  : gmap string JsValue :=
  let result : gmap string JsValue := ∅ in
  let anyOptions := options in
  let result :=
    foldl (λ result key,
             if hasProperty options key then <[key := getProperty anyOptions key]> result
             else result)
      result serializableKeys in
  let result :=
    restoreJsonOption anyOptions result "_experimentalSortImportsJson"
      "experimentalSortImports" in
  restoreJsonOption anyOptions result "_experimentalTailwindcssJson"
    "experimentalTailwindcss".

(** The two callbacks [formatToDoc] is handed. *)
Definition EmbeddedCallback : Type :=
  gmap string JsValue → string → string → Completion JsValue JsValue.
Definition TailwindCallback : Type :=
  JsValue → gmap string JsValue → list string → Completion JsValue JsValue.

(** [formatToDoc] of the native bindings, and [formatEmbeddedCode] and
    [sortTailwindClasses] of [./prettier]: what the parser calls. *)
Variable formatToDoc :
  string → SourceType → JsValue → gmap string JsValue → EmbeddedCallback → TailwindCallback
  → Completion JsValue string.
Variable formatEmbeddedCode :
  string → string → gmap string JsValue → Completion JsValue JsValue.
Variable sortTailwindClasses :
  JsValue → list string → gmap string JsValue → Completion JsValue JsValue.

Record Parser : Type := {
  parse : string → gmap string JsValue → Completion JsValue string;
  astFormat : string;
  locStart : Z;
  locEnd : Z;
}.

Definition createOxcParser (sourceType : SourceType) : Parser :=
  {| parse := λ text options,
       let filepath := nullishCoalesce (getProperty options "filepath") (JStr "unknown") in
       let serializableOptions := extractSerializableOptions options in
       formatToDoc text sourceType filepath serializableOptions
         (λ _opts parserName code, formatEmbeddedCode code parserName options)
         (λ fp opts classes, sortTailwindClasses fp classes opts);
     astFormat := "oxfmt-doc";
     locStart := -1;
     locEnd := -1 |}.

End PrettierPlugin.

(** The [default] of the two internal options the plugin declares. *)
Definition pluginOptionDefaults : gmap string JsValue :=
  {[ "_experimentalSortImportsJson" := JStr ""; "_experimentalTailwindcssJson" := JStr "" ]}.

(** A [JSON.parse] for a handful of texts, for concrete runs. *)
Definition sampleJSONParse (v : JsValue) : Completion JsValue JsValue :=
  match v with
  | JStr "{}" => Returned (JObj [])
  | JStr "true" => Returned (JBool true)
  | JStr "null" => Returned JNull
  | _ => Thrown (JError "Unexpected token")
  end.

Definition sampleOptions : gmap string JsValue :=
  {[ "semi" := JBool false; "tabWidth" := JNum 4; "plugins" := JArr [JFunction "plugin"];
     "parser" := JStr "babel"; "experimentalSortImports" := JStr "ignored";
     "_experimentalSortImportsJson" := JStr "{}";
     "_experimentalTailwindcssJson" := JStr "{oops" ]}.

(** Modules whose every export throws. *)
Definition failingPlugins : PluginsModule (list string) :=
  {| pm_loadPlugin := λ path _ _ log, (Thrown (JError "cannot load"), log);
     pm_lintFile := λ _ _ _ _ _ _ _ log, (Thrown (JError "cannot lint"), log);
     pm_setupRuleConfigs := λ _ log, (Thrown (JError "cannot set up"), log) |}.

Definition failingWorkspace : WorkspaceModule (list string) :=
  {| wm_createWorkspace := λ _ log, (Thrown (JError "cannot create"), log);
     wm_destroyWorkspace := λ _ log, (Thrown (JError "cannot destroy"), log) |}.

(** * Properties *)

(** ** Strings *)

Lemma string_app_assoc (a b c : string) : (a +:+ b) +:+ c = a +:+ (b +:+ c).
Proof.
  induction a as [|x a IH]; [done|].
  change (String x ((a +:+ b) +:+ c) = String x (a +:+ (b +:+ c))).
  by rewrite IH.
Qed.

Lemma string_app_nil_r (a : string) : a +:+ "" = a.
Proof.
  induction a as [|x a IH]; [done|].
  change (String x (a +:+ "") = String x a). by rewrite IH.
Qed.

Lemma contains_refl (s : string) : contains s s.
Proof. exists "", "". change (s = s +:+ ""). by rewrite string_app_nil_r. Qed.

Lemma contains_trans (s t u : string) : contains s t → contains t u → contains s u.
Proof.
  intros (b1 & a1 & ->) (b2 & a2 & ->).
  exists (b1 +:+ b2), (a2 +:+ a1).
  by rewrite !string_app_assoc.
Qed.

Lemma notAnObjectMessage_contains (path : string) :
  contains (notAnObjectMessage path) path.
Proof. by exists "Config at ", " must export a default object". Qed.

(** ** [JSON.stringify] *)

Lemma SerializeJSONProperty_JArr (l : list JsValue) :
  SerializeJSONProperty (JArr l) =
  (parts ←! serializeElements l; Returned (Some ("[" +:+ joinComma parts +:+ "]"))).
Proof.
  reflexivity.
Qed.

Lemma SerializeJSONProperty_JObj (l : list (string * JsValue)) :
  SerializeJSONProperty (JObj l) =
  (parts ←! serializeMembers l; Returned (Some ("{" +:+ joinComma parts +:+ "}"))).
Proof.
  reflexivity.
Qed.

Lemma SerializeJSONProperty_ConfigFailure (p m : string) :
  ∃ s, SerializeJSONProperty (ConfigFailure (JStr p) m) = Returned (Some s).
Proof. unfold ConfigFailure. rewrite SerializeJSONProperty_JObj. by eexists. Qed.

(** A result object with a single array-valued member serializes exactly
    when the elements do. *)
Lemma JSONStringify_array_member (key : string) (entries : list JsValue) :
  JSONStringify (JObj [(key, JArr entries)]) =
  (parts ←! serializeElements entries;
   Returned (JStr ("{" +:+ (QuoteJSONString key +:+ ":" +:+ "[" +:+ joinComma parts +:+ "]")
                   +:+ "}"))).
Proof.
  unfold JSONStringify. rewrite SerializeJSONProperty_JObj.
  cbn [serializeMembers]. rewrite SerializeJSONProperty_JArr.
  by destruct (serializeElements entries).
Qed.

Lemma JSONStringify_string_member (key message : string) :
  JSONStringify (JObj [(key, JStr message)]) =
  Returned (JStr ("{" +:+ (QuoteJSONString key +:+ ":" +:+ QuoteJSONString message) +:+ "}")).
Proof. reflexivity. Qed.

(** The third character of a result text is the first letter of its key. *)
Lemma SuccessText_key (entries : list JsValue) (text : string) :
  SuccessText entries text → String.get 2 text = Some "S"%char.
Proof.
  unfold SuccessText. rewrite JSONStringify_array_member.
  destruct (serializeElements entries); [|done]. by intros [= <-].
Qed.

Lemma FailuresText_key (entries : list JsValue) (text : string) :
  FailuresText entries text → String.get 2 text = Some "F"%char.
Proof.
  unfold FailuresText. rewrite JSONStringify_array_member.
  destruct (serializeElements entries); [|done]. by intros [= <-].
Qed.

Lemma ErrorText_key (message text : string) :
  ErrorText message text → String.get 2 text = Some "E"%char.
Proof.
  unfold ErrorText. rewrite JSONStringify_string_member. by intros [= <-].
Qed.

Lemma ErrorText_total (message : string) : ∃ text, ErrorText message text.
Proof. unfold ErrorText. rewrite JSONStringify_string_member. by eexists. Qed.

(** ** [loadJsConfigs] *)

Section JsConfigProperties.

Variable getErrorMessage : JsValue → string.
Variable importFile : string → Completion JsValue JsModule.


Lemma indexPaths_middle (pre ps : list string) (p : string) :
  indexPaths (pre ++ p :: ps) (length pre) = JStr p.
Proof. unfold indexPaths. by rewrite list_lookup_middle. Qed.

(** The loop, entered at index [length pre] with the results of the
    remaining paths, appends what those paths contribute. *)
Lemma collectResults_spec (ps pre : list string) (successes errors : list JsValue) :
  collectResults getErrorMessage (pre ++ ps) (allSettled (map (loadConfig importFile) ps))
    (length pre) successes errors
  = (successes ++ successesOf importFile ps, errors ++ failuresOf getErrorMessage importFile ps).
Proof.
  revert pre successes errors.
  induction ps as [|p ps IH]; intros pre successes errors.
  - by rewrite !app_nil_r.
  - specialize (IH (pre ++ [p])).
    rewrite <- app_assoc, length_app, Nat.add_1_r in IH. cbn [app] in IH.
    unfold successesOf, failuresOf in *. cbn [map allSettled omap list_omap].
    fold (allSettled (map (loadConfig importFile) ps)).
    destruct (loadConfig importFile p) as [v|e]; cbn [collectResults].
    + rewrite IH. by rewrite <- app_assoc.
    + rewrite IH, indexPaths_middle. by rewrite <- app_assoc.
Qed.

Lemma collected_spec (paths : list string) :
  collected getErrorMessage importFile paths
  = (successesOf importFile paths, failuresOf getErrorMessage importFile paths).
Proof. apply (collectResults_spec paths [] [] []). Qed.

Lemma elem_of_failuresOf (paths : list string) (entry : JsValue) :
  entry ∈ failuresOf getErrorMessage importFile paths ↔
  ∃ p e, p ∈ paths ∧ loadConfig importFile p = Thrown e ∧
         entry = ConfigFailure (JStr p) (getErrorMessage e).
Proof.
  unfold failuresOf. rewrite list_elem_of_omap. split.
  - intros (p & Hp & Hentry). destruct (loadConfig importFile p) as [v|e] eqn:Hload; [done|].
    exists p, e. by injection Hentry as <-.
  - intros (p & e & Hp & Hload & ->). exists p. by rewrite Hload.
Qed.

Lemma elem_of_successesOf (paths : list string) (entry : JsValue) :
  entry ∈ successesOf importFile paths ↔
  ∃ p, p ∈ paths ∧ loadConfig importFile p = Returned entry.
Proof.
  unfold successesOf. rewrite list_elem_of_omap. split.
  - intros (p & Hp & Hentry). destruct (loadConfig importFile p) as [v|e] eqn:Hload; [|done].
    exists p. by injection Hentry as <-.
  - intros (p & Hp & Hload). exists p. by rewrite Hload.
Qed.

Lemma failuresOf_nil_iff (paths : list string) :
  failuresOf getErrorMessage importFile paths = [] ↔
  ∀ p, p ∈ paths → ∃ v, loadConfig importFile p = Returned v.
Proof.
  split.
  - intros Hnil p Hp. destruct (loadConfig importFile p) as [v|e] eqn:Hload; [by exists v|].
    assert (ConfigFailure (JStr p) (getErrorMessage e)
              ∈ failuresOf getErrorMessage importFile paths) as Hin
      by (apply elem_of_failuresOf; eauto).
    rewrite Hnil in Hin. by apply elem_of_nil in Hin.
  - intros Hall.
    destruct (failuresOf getErrorMessage importFile paths) as [|entry rest] eqn:Hf; [done|].
    assert (entry ∈ failuresOf getErrorMessage importFile paths) as Hin by (rewrite Hf; left).
    apply elem_of_failuresOf in Hin as (p & e & Hp & Hload & _).
    destruct (Hall p Hp) as [v Hv]. congruence.
Qed.

(** What a successful [loadConfig] returns. *)
Lemma loadConfig_Returned (path : string) (v : JsValue) :
  loadConfig importFile path = Returned v ↔
  ∃ m, importFile path = Returned m ∧
       typeof (module_default m) = "object" ∧ module_default m ≠ JNull ∧
       v = JsConfigResult path (module_default m).
Proof.
  unfold loadConfig. split.
  - destruct (importFile path) as [m|e]; [|done]. cbn [bindC].
    destruct (String.eqb (typeof (module_default m)) "object") eqn:Hty;
      cbn [negb orb]; [|done].
    destruct (module_default m) eqn:Hd; try done;
      intros [= <-]; exists m; by rewrite Hd.
  - intros (m & -> & Hty & Hnull & ->). cbn [bindC]. rewrite Hty.
    by destruct (module_default m).
Qed.

(** When every path succeeds, [successes] holds one entry per path, in
    the order of the paths. *)
Lemma successesOf_all (paths : list string) :
  (∀ p, p ∈ paths → ∃ v, loadConfig importFile p = Returned v) →
  Forall2 (λ p entry, loadConfig importFile p = Returned entry)
    paths (successesOf importFile paths).
Proof.
  unfold successesOf. induction paths as [|p paths IH]; intros Hall; [constructor|].
  cbn [omap list_omap]. destruct (Hall p) as [v Hv]; [left|]. rewrite Hv.
  constructor; [done|]. apply IH. intros q Hq. apply Hall. by right.
Qed.

Lemma failures_serialize (paths : list string) :
  ∃ parts, serializeElements (failuresOf getErrorMessage importFile paths) = Returned parts.
Proof.
  unfold failuresOf. induction paths as [|p paths [parts IH]]; [by eexists|].
  cbn [omap list_omap]. destruct (loadConfig importFile p) as [v|e]; [by eexists|].
  cbn [serializeElements].
  destruct (SerializeJSONProperty_ConfigFailure p (getErrorMessage e)) as [s ->].
  rewrite IH. by eexists.
Qed.

Lemma FailuresText_failuresOf (paths : list string) :
  ∃ text, FailuresText (failuresOf getErrorMessage importFile paths) text.
Proof.
  unfold FailuresText. rewrite JSONStringify_array_member.
  destruct (failures_serialize paths) as [parts ->]. by eexists.
Qed.

(** The two ways out of the [try] block. *)
Lemma loadJsConfigsTry_failures (paths : list string) :
  failuresOf getErrorMessage importFile paths ≠ [] →
  loadJsConfigsTry getErrorMessage importFile paths
  = JSONStringify (JObj [("Failures", JArr (failuresOf getErrorMessage importFile paths))]).
Proof.
  intros Hne. unfold loadJsConfigsTry. rewrite collected_spec.
  destruct (failuresOf getErrorMessage importFile paths); [done|]. reflexivity.
Qed.

Lemma loadJsConfigsTry_successes (paths : list string) :
  failuresOf getErrorMessage importFile paths = [] →
  loadJsConfigsTry getErrorMessage importFile paths
  = JSONStringify (JObj [("Success", JArr (successesOf importFile paths))]).
Proof.
  intros Hnil. unfold loadJsConfigsTry. by rewrite collected_spec, Hnil.
Qed.

Lemma loadJsConfigs_failures (paths : list string) :
  failuresOf getErrorMessage importFile paths ≠ [] →
  ∃ text,
    loadJsConfigs getErrorMessage importFile paths = Returned (JStr text) ∧
    FailuresText (failuresOf getErrorMessage importFile paths) text.
Proof.
  intros Hne. destruct (FailuresText_failuresOf paths) as [text Htext].
  exists text. split; [|done].
  unfold loadJsConfigs. rewrite loadJsConfigsTry_failures by done.
  by rewrite Htext.
Qed.

(** The entries of [errors] belong, one to one and in order, to the
    increasing sequence of the indices whose path failed ([k] is the index
    of the first path of [ps] in the whole array). *)
Lemma failuresOf_indexed (ps : list string) (k : nat) :
  ∃ indices : list nat,
    StronglySorted lt indices ∧
    Forall (le k) indices ∧
    (∀ i, i ∈ indices ↔
          k ≤ i ∧ ∃ p reason, ps !! (i - k) = Some p ∧
                              loadConfig importFile p = Thrown reason) ∧
    Forall2 (λ i entry, k ≤ i ∧ ∃ p reason,
               ps !! (i - k) = Some p ∧ loadConfig importFile p = Thrown reason ∧
               entry = ConfigFailure (JStr p) (getErrorMessage reason))
      indices (failuresOf getErrorMessage importFile ps).
Proof.
  revert k. induction ps as [|p ps IH]; intros k.
  { exists []. split; [constructor|]. split; [constructor|]. split; [|constructor].
    intros i. split; [by intros ?%elem_of_nil|by intros (_ & q & r & Hq & _)]. }
  destruct (IH (S k)) as (indices & Hsorted & Hge & Hmem & Hentries).
  assert (∀ i, S k ≤ i → (p :: ps) !! (i - k) = ps !! (i - S k)) as Hshift.
  { intros i Hi. by replace (i - k) with (S (i - S k)) by lia. }
  unfold failuresOf in *. cbn [omap list_omap].
  destruct (loadConfig importFile p) as [v|reason] eqn:Hload.
  - exists indices. split; [done|]. split; [|split].
    + eapply Forall_impl; [exact Hge|]. intros; simpl in *; lia.
    + intros i. rewrite Hmem. split.
      * intros (Hi & q & r & Hq & Hr). split; [lia|]. exists q, r. by rewrite Hshift.
      * intros (Hi & q & r & Hq & Hr).
        destruct (decide (i = k)) as [->|Hne].
        { rewrite Nat.sub_diag in Hq. injection Hq as <-. congruence. }
        split; [lia|]. exists q, r. by rewrite <- Hshift by lia.
    + eapply Forall2_impl; [exact Hentries|].
      intros i entry (Hi & q & r & Hq & Hr & ->). split; [lia|].
      exists q, r. by rewrite Hshift.
  - exists (k :: indices). split; [|split; [|split]].
    + constructor; [done|]. eapply Forall_impl; [exact Hge|]. intros; simpl in *; lia.
    + constructor; [done|]. eapply Forall_impl; [exact Hge|]. intros; simpl in *; lia.
    + intros i. rewrite elem_of_cons, Hmem. split.
      * intros [->|(Hi & q & r & Hq & Hr)].
        { split; [done|]. exists p, reason. by rewrite Nat.sub_diag. }
        split; [lia|]. exists q, r. by rewrite Hshift.
      * intros (Hi & q & r & Hq & Hr).
        destruct (decide (i = k)) as [->|Hne]; [by left|].
        right. split; [lia|]. exists q, r. by rewrite <- Hshift by lia.
    + constructor.
      * split; [done|]. exists p, reason. by rewrite Nat.sub_diag.
      * eapply Forall2_impl; [exact Hentries|].
        intros i entry (Hi & q & r & Hq & Hr & ->). split; [lia|].
        exists q, r. by rewrite Hshift.
Qed.

Lemma loadConfig_not_object (path : string) (m : JsModule) :
  importFile path = Returned m →
  typeof (module_default m) ≠ "object" ∨ module_default m = JNull →
  loadConfig importFile path = Thrown (JError (notAnObjectMessage path)).
Proof.
  intros Himp Hbad. unfold loadConfig. rewrite Himp. cbn [bindC].
  destruct (module_default m); try done; destruct Hbad; done.
Qed.

(** Without a failing path, the result is the [Success] text, or the
    [Error] text when serializing the configs throws. *)
Lemma loadJsConfigs_successes (paths : list string) :
  failuresOf getErrorMessage importFile paths = [] →
  match JSONStringify (JObj [("Success", JArr (successesOf importFile paths))]) with
  | Returned _ =>
      ∃ text, loadJsConfigs getErrorMessage importFile paths = Returned (JStr text) ∧
              SuccessText (successesOf importFile paths) text
  | Thrown err =>
      ∃ text, loadJsConfigs getErrorMessage importFile paths = Returned (JStr text) ∧
              loadJsConfigsTry getErrorMessage importFile paths = Thrown err ∧
              ErrorText (getErrorMessage err) text
  end.
Proof.
  intros Hnil. unfold loadJsConfigs, SuccessText.
  rewrite loadJsConfigsTry_successes by done.
  rewrite JSONStringify_array_member.
  destruct (serializeElements (successesOf importFile paths)) as [parts|err];
    cbn [bindC tryCatch].
  - by eexists.
  - destruct (ErrorText_total (getErrorMessage err)) as [text Htext].
    exists text. by rewrite Htext.
Qed.

End JsConfigProperties.

(** *** Facts about the sample host *)

Lemma sampleGetErrorMessage_nonempty (v : JsValue) : sampleGetErrorMessage v ≠ "".
Proof.
  destruct v as [| | | | | | | |message| |]; try done.
  cbn [sampleGetErrorMessage]. by destruct message.
Qed.

Lemma sampleGetErrorMessage_keeps_message (message : string) :
  contains (sampleGetErrorMessage (JError message)) message.
Proof.
  destruct message as [|c message]; [by exists "Unknown error", ""|].
  cbn [sampleGetErrorMessage String.eqb]. apply contains_refl.
Qed.

(** The modelled [getErrorMessage] never returns the empty string. *)
Lemma getErrorMessage_nonempty (err : JsValue) : Utils.getErrorMessage err ≠ "".
Proof.
  destruct err as [| | | | | | | |message| |]; try done.
  cbn [Utils.getErrorMessage]. by destruct message.
Qed.

Section JsConfigClaims.

Variable getErrorMessage : JsValue → string.
Variable importFile : string → Completion JsValue JsModule.


(** C1. When at least one path of the batch fails to load or to validate,
    [loadJsConfigs] resolves to the JSON text of [{ Failures: entries }].
    Every failing path has its entry [{ path, error }] in [entries], the
    error being the message of what the load was rejected with; every
    entry is such an object for a failing path of the batch, with a
    message that is not empty; and no entry has the path of a config that
    loaded. *)
Theorem loadJsConfigs_reports_every_failure (paths : list string) :
  (∃ p reason, p ∈ paths ∧ loadConfig importFile p = Thrown reason) →
  ∃ entries text,
    loadJsConfigs Utils.getErrorMessage importFile paths = Returned (JStr text) ∧
    JSONStringify (JObj [("Failures", JArr entries)]) = Returned (JStr text) ∧
    (∀ p reason, p ∈ paths → loadConfig importFile p = Thrown reason →
       JObj [("path", JStr p); ("error", JStr (Utils.getErrorMessage reason))] ∈ entries) ∧
    (∀ entry, entry ∈ entries →
       ∃ p reason message,
         p ∈ paths ∧ loadConfig importFile p = Thrown reason ∧
         message = Utils.getErrorMessage reason ∧ message ≠ "" ∧
         entry = JObj [("path", JStr p); ("error", JStr message)]) ∧
    (∀ p v message, loadConfig importFile p = Returned v →
       JObj [("path", JStr p); ("error", JStr message)] ∉ entries).
Proof.
  intros (p0 & r0 & Hp0 & Hload0).
  assert (failuresOf Utils.getErrorMessage importFile paths ≠ []) as Hne.
  { intros Hnil.
    destruct (proj1 (failuresOf_nil_iff _ _ _) Hnil p0 Hp0) as [v Hv]. congruence. }
  destruct (loadJsConfigs_failures Utils.getErrorMessage importFile paths Hne)
    as (text & Hret & Htext).
  exists (failuresOf Utils.getErrorMessage importFile paths), text.
  split; [done|]. split; [done|]. split; [|split].
  - intros p reason Hp Hload.
    apply (elem_of_failuresOf Utils.getErrorMessage importFile). eauto.
  - intros entry Hin. apply elem_of_failuresOf in Hin as (p & reason & Hp & Hload & ->).
    exists p, reason, (Utils.getErrorMessage reason).
    repeat split; try done. apply getErrorMessage_nonempty.
  - intros p v message Hload Hin.
    apply elem_of_failuresOf in Hin as (p' & reason & _ & Hload' & Heq).
    injection Heq as -> _. congruence.
Qed.

(** C2, as the code has it. When every path of the batch loads, [successes]
    holds exactly one [{ path, config }] entry per path, in the order of
    [paths]; [loadJsConfigs] resolves to the JSON text of
    [{ Success: successes }] provided serializing it does not throw, and to
    the [{ Error: message }] text of the [catch] block when it does. *)
Theorem loadJsConfigs_all_loaded (paths : list string) :
  (∀ p, p ∈ paths → ∃ v, loadConfig importFile p = Returned v) →
  ∃ entries,
    length entries = length paths ∧
    Forall2 (λ p entry, ∃ m, importFile p = Returned m ∧
                             entry = JsConfigResult p (module_default m))
      paths entries ∧
    match JSONStringify (JObj [("Success", JArr entries)]) with
    | Returned _ =>
        ∃ text, loadJsConfigs getErrorMessage importFile paths = Returned (JStr text) ∧
                SuccessText entries text
    | Thrown err =>
        ∃ text, loadJsConfigs getErrorMessage importFile paths = Returned (JStr text) ∧
                ErrorText (getErrorMessage err) text
    end.
Proof.
  intros Hall. exists (successesOf importFile paths).
  pose proof (successesOf_all importFile paths Hall) as Hentries.
  split; [symmetry; by eapply Forall2_length|]. split.
  - eapply Forall2_impl; [exact Hentries|]. intros p entry Hload.
    apply loadConfig_Returned in Hload as (m & Himp & _ & _ & ->). eauto.
  - pose proof (loadJsConfigs_successes getErrorMessage importFile paths
                  (proj2 (failuresOf_nil_iff getErrorMessage importFile paths) Hall)) as Hres.
    destruct (JSONStringify (JObj [("Success", JArr (successesOf importFile paths))]));
      [done|].
    destruct Hres as (text & Hret & _ & Htext). eauto.
Qed.

(** C3. A path whose module has [null], a number or a string as default
    export gets the entry [{ path, error }] in [errors] whose error is the
    message of the [Error] thrown for it, and that message contains the
    path (given that [getErrorMessage] keeps the message of an [Error]); a
    path whose default export has [typeof] "object" and is not [null], as
    the empty object does, gets its entry [{ path, config }] in
    [successes]. *)
Theorem loadJsConfigs_validates_default_export
    (paths : list string) (path : string) (m : JsModule) :
  (∀ message, contains (getErrorMessage (JError message)) message) →
  path ∈ paths →
  importFile path = Returned m →
  ((module_default m = JNull ∨ (∃ n, module_default m = JNum n) ∨
    (∃ s, module_default m = JStr s)) →
   let message :=
     getErrorMessage
       (JError ("Config at " +:+ path +:+ " must export a default object")) in
   JObj [("path", JStr path); ("error", JStr message)]
     ∈ (collected getErrorMessage importFile paths).2 ∧
   contains message path ∧
   ∀ config, JObj [("path", JStr path); ("config", config)]
               ∉ (collected getErrorMessage importFile paths).1) ∧
  ((typeof (module_default m) = "object" ∧ module_default m ≠ JNull) →
   JObj [("path", JStr path); ("config", module_default m)]
     ∈ (collected getErrorMessage importFile paths).1 ∧
   ∀ message, JObj [("path", JStr path); ("error", JStr message)]
                ∉ (collected getErrorMessage importFile paths).2) ∧
  typeof (JObj []) = "object" ∧ JObj [] ≠ JNull.
Proof.
  intros Hkeeps Hin Himp. rewrite collected_spec. cbn [fst snd].
  split; [|split; [|done]].
  - intros Hprimitive.
    assert (loadConfig importFile path = Thrown (JError (notAnObjectMessage path))) as Hload.
    { apply (loadConfig_not_object importFile path m Himp).
      destruct Hprimitive as [->|[[n ->]|[s ->]]]; [by right|by left|by left]. }
    split; [|split].
    + apply elem_of_failuresOf. exists path, (JError (notAnObjectMessage path)). eauto.
    + eapply contains_trans; [apply Hkeeps|apply notAnObjectMessage_contains].
    + intros config (p & Hp & Hret)%elem_of_successesOf.
      pose proof (proj1 (loadConfig_Returned _ _ _) Hret) as (m' & _ & _ & _ & Heq).
      assert (p = path) as -> by (unfold JsConfigResult in Heq; congruence).
      congruence.
  - intros [Hty Hnonnull].
    assert (loadConfig importFile path
            = Returned (JsConfigResult path (module_default m))) as Hload
      by (apply loadConfig_Returned; by exists m).
    split.
    + apply elem_of_successesOf. by exists path.
    + intros message (p & reason & _ & Hthrown & Heq)%elem_of_failuresOf.
      assert (p = path) as -> by (unfold ConfigFailure in Heq; congruence).
      congruence.
Qed.

(** C4. [loadJsConfigs] always resolves, to a JSON text that is the
    serialization of exactly one of [{ Success: [...] }],
    [{ Failures: [...] }] and [{ Error: message }]; when the [try] block
    throws, it is the [Error] text with the message of what was thrown. *)
Theorem loadJsConfigs_never_throws (paths : list string) :
  ∃ text,
    loadJsConfigs getErrorMessage importFile paths = Returned (JStr text) ∧
    ((∃ entries, SuccessText entries text) ∨
     (∃ entries, FailuresText entries text) ∨
     (∃ message, ErrorText message text)) ∧
    ¬ ((∃ entries, SuccessText entries text) ∧ (∃ entries, FailuresText entries text)) ∧
    ¬ ((∃ entries, SuccessText entries text) ∧ (∃ message, ErrorText message text)) ∧
    ¬ ((∃ entries, FailuresText entries text) ∧ (∃ message, ErrorText message text)) ∧
    (∀ err, loadJsConfigsTry getErrorMessage importFile paths = Thrown err →
            ErrorText (getErrorMessage err) text).
Proof.
  assert (∃ text,
    loadJsConfigs getErrorMessage importFile paths = Returned (JStr text) ∧
    ((∃ entries, SuccessText entries text) ∨
     (∃ entries, FailuresText entries text) ∨
     (∃ message, ErrorText message text)) ∧
    (∀ err, loadJsConfigsTry getErrorMessage importFile paths = Thrown err →
            ErrorText (getErrorMessage err) text)) as (text & Hret & Hshape & Hthrown).
  { destruct (decide (failuresOf getErrorMessage importFile paths = [])) as [Hnil|Hne].
    - pose proof (loadJsConfigs_successes getErrorMessage importFile paths Hnil) as Hres.
      pose proof (loadJsConfigsTry_successes getErrorMessage importFile paths Hnil) as Htry.
      destruct (JSONStringify (JObj [("Success", JArr (successesOf importFile paths))]))
        as [v|err0] eqn:Hser.
      + destruct Hres as (text & Hret & Htext). exists text.
        split; [done|]. split; [eauto|]. intros err Herr. congruence.
      + destruct Hres as (text & Hret & _ & Htext). exists text.
        split; [done|]. split; [eauto|]. intros err Herr.
        rewrite Htry in Herr. by injection Herr as <-.
    - destruct (loadJsConfigs_failures getErrorMessage importFile paths Hne)
        as (text & Hret & Htext).
      exists text. split; [done|]. split; [eauto|]. intros err Herr.
      rewrite loadJsConfigsTry_failures in Herr by done.
      unfold FailuresText in Htext. congruence. }
  exists text. split; [done|]. split; [done|].
  split; [|split; [|split; [|done]]].
  - intros [[? Hs%SuccessText_key] [? Hf%FailuresText_key]]. congruence.
  - intros [[? Hs%SuccessText_key] [? He%ErrorText_key]]. congruence.
  - intros [[? Hf%FailuresText_key] [? He%ErrorText_key]]. congruence.
Qed.

(** C9. For the empty array of paths the result is the text
    [{"Success":[]}]. *)
Theorem loadJsConfigs_no_paths :
  loadJsConfigs getErrorMessage importFile [] = Returned (JStr emptySuccessText) ∧
  SuccessText [] emptySuccessText.
Proof. split; reflexivity. Qed.

(** C10. When the result is a [Failures] text, it is the serialization of
    entries that follow the failing indices of [paths] in increasing
    order, and the entry for index [i] is [{ path, error }] with the string
    [paths[i]] as its path and the message of the reason the [i]-th load
    was rejected with as its error, whatever that reason says. *)
Theorem loadJsConfigs_failures_follow_paths (paths : list string) (text : string) :
  loadJsConfigs getErrorMessage importFile paths = Returned (JStr text) →
  (∃ reported, FailuresText reported text) →
  ∃ (indices : list nat) (entries : list JsValue),
    JSONStringify (JObj [("Failures", JArr entries)]) = Returned (JStr text) ∧
    StronglySorted lt indices ∧
    (∀ i, i ∈ indices ↔
          ∃ p reason, paths !! i = Some p ∧ loadConfig importFile p = Thrown reason) ∧
    Forall2 (λ i entry, ∃ p reason,
               paths !! i = Some p ∧ loadConfig importFile p = Thrown reason ∧
               entry = JObj [("path", JStr p); ("error", JStr (getErrorMessage reason))])
      indices entries.
Proof.
  intros Hret [reported Hreported%FailuresText_key].
  destruct (decide (failuresOf getErrorMessage importFile paths = [])) as [Hnil|Hne].
  { pose proof (loadJsConfigs_successes getErrorMessage importFile paths Hnil) as Hres.
    destruct (JSONStringify (JObj [("Success", JArr (successesOf importFile paths))])).
    - destruct Hres as (text' & Hret' & Hs%SuccessText_key). congruence.
    - destruct Hres as (text' & Hret' & _ & He%ErrorText_key). congruence. }
  destruct (loadJsConfigs_failures getErrorMessage importFile paths Hne)
    as (text' & Hret' & Htext).
  assert (text' = text) as -> by congruence.
  destruct (failuresOf_indexed getErrorMessage importFile paths 0)
    as (indices & Hsorted & _ & Hmem & Hentries).
  exists indices, (failuresOf getErrorMessage importFile paths).
  split; [done|]. split; [done|]. split.
  - intros i. rewrite Hmem, Nat.sub_0_r. split; [by intros [_ ?]|]. split; [lia|done].
  - eapply Forall2_impl; [exact Hentries|].
    intros i entry (_ & p & reason & Hp & Hload & ->). rewrite Nat.sub_0_r in Hp.
    by exists p, reason.
Qed.

End JsConfigClaims.


Lemma loadJsConfigs_reports_every_failure_witness :
  let paths := ["/a/good.config.ts"; "/b/bad.config.ts"; "/e/missing.config.ts"] in
  (∃ p reason, p ∈ paths ∧ loadConfig sampleImportFile p = Thrown reason) ∧
  ∃ entries text,
    loadJsConfigs Utils.getErrorMessage sampleImportFile paths = Returned (JStr text) ∧
    JSONStringify (JObj [("Failures", JArr entries)]) = Returned (JStr text) ∧
    JObj [("path", JStr "/e/missing.config.ts");
          ("error", JStr "Cannot find module /e/missing.config.ts")] ∈ entries ∧
    ∀ message, JObj [("path", JStr "/a/good.config.ts"); ("error", JStr message)] ∉ entries.
Proof.
  intros paths.
  assert (∃ p reason, p ∈ paths ∧ loadConfig sampleImportFile p = Thrown reason) as Hfail.
  { exists "/b/bad.config.ts", (JError (notAnObjectMessage "/b/bad.config.ts")).
    split; [|reflexivity]. right. left. }
  split; [exact Hfail|].
  destruct (loadJsConfigs_reports_every_failure sampleImportFile paths Hfail)
    as (entries & text & Hret & Htext & Hall & _ & Hnone).
  exists entries, text. split; [done|]. split; [done|]. split.
  - apply (Hall "/e/missing.config.ts"
             (JError "Cannot find module /e/missing.config.ts")); [|reflexivity].
    right. right. left.
  - intros message.
    by apply (Hnone "/a/good.config.ts"
                (JsConfigResult "/a/good.config.ts"
                   (JObj [("rules", JObj [("no-debugger", JStr "error")])]))).
Defined.

Lemma sample_pair_loads (p : string) :
  p ∈ ["/a/good.config.ts"; "/d/empty.config.ts"] →
  ∃ v, loadConfig sampleImportFile p = Returned v.
Proof.
  intros Hp. repeat (apply elem_of_cons in Hp as [->|Hp]; [by eexists|]).
  by apply elem_of_nil in Hp.
Qed.

Lemma loadJsConfigs_all_loaded_witness :
  let paths := ["/a/good.config.ts"; "/d/empty.config.ts"] in
  ∃ entries,
    length entries = 2%nat ∧
    Forall2 (λ p entry, ∃ m, sampleImportFile p = Returned m ∧
                             entry = JsConfigResult p (module_default m))
      paths entries ∧
    match JSONStringify (JObj [("Success", JArr entries)]) with
    | Returned _ =>
        ∃ text, loadJsConfigs sampleGetErrorMessage sampleImportFile paths
                = Returned (JStr text) ∧
                SuccessText entries text
    | Thrown err =>
        ∃ text, loadJsConfigs sampleGetErrorMessage sampleImportFile paths
                = Returned (JStr text) ∧
                ErrorText (sampleGetErrorMessage err) text
    end.
Proof.
  intros paths.
  exact (loadJsConfigs_all_loaded sampleGetErrorMessage sampleImportFile paths
           sample_pair_loads).
Defined.

(** C2, as the claim has it, fails: both configs of this batch load, one
    of them holds a BigInt, and the result is not a [Success] text. *)
Lemma loadJsConfigs_all_loaded_not_Success :
  let paths := ["/a/good.config.ts"; "/c/bigint.config.ts"] in
  (∀ p, p ∈ paths → ∃ v, loadConfig sampleImportFile p = Returned v) ∧
  ¬ ∃ entries text,
      loadJsConfigs sampleGetErrorMessage sampleImportFile paths = Returned (JStr text) ∧
      SuccessText entries text.
Proof.
  intros paths. split.
  - intros p Hp. repeat (apply elem_of_cons in Hp as [->|Hp]; [by eexists|]).
    by apply elem_of_nil in Hp.
  - intros (entries & text & Hret & Hkey%SuccessText_key).
    vm_compute in Hret. injection Hret as <-. vm_compute in Hkey. discriminate.
Qed.

(** The scenario of the specification: a good and a bad config give
    [{"Failures":[{"path":"/b/bad.config.ts","error":...}]}], with nothing
    for the good one. *)
Example loadJsConfigs_good_and_bad :
  loadJsConfigs sampleGetErrorMessage sampleImportFile
    ["/a/good.config.ts"; "/b/bad.config.ts"]
  = Returned
      (JStr ("{" +:+ QuoteJSONString "Failures" +:+ ":[{"
             +:+ QuoteJSONString "path" +:+ ":" +:+ QuoteJSONString "/b/bad.config.ts"
             +:+ "," +:+ QuoteJSONString "error" +:+ ":"
             +:+ QuoteJSONString "Config at /b/bad.config.ts must export a default object"
             +:+ "}]}")).
Proof. reflexivity. Qed.

(** What the batch with the BigInt resolves to. *)
Example loadJsConfigs_bigint_config :
  loadJsConfigs sampleGetErrorMessage sampleImportFile
    ["/a/good.config.ts"; "/c/bigint.config.ts"]
  = Returned (JStr ("{" +:+ String dquote "Error" +:+ String dquote ":"
                    +:+ String dquote "Do not know how to serialize a BigInt"
                    +:+ String dquote "}")).
Proof. reflexivity. Qed.

Lemma loadJsConfigs_validates_default_export_witness :
  let paths := ["/b/bad.config.ts"; "/d/empty.config.ts"] in
  (JObj [("path", JStr "/b/bad.config.ts");
         ("error", JStr "Config at /b/bad.config.ts must export a default object")]
     ∈ (collected sampleGetErrorMessage sampleImportFile paths).2 ∧
   contains "Config at /b/bad.config.ts must export a default object"
     "/b/bad.config.ts") ∧
  JObj [("path", JStr "/d/empty.config.ts"); ("config", JObj [])]
    ∈ (collected sampleGetErrorMessage sampleImportFile paths).1.
Proof.
  intros paths. split.
  - destruct (loadJsConfigs_validates_default_export sampleGetErrorMessage sampleImportFile
                paths "/b/bad.config.ts" {| module_default := JStr "not a config" |}
                sampleGetErrorMessage_keeps_message) as [Hbad _].
    + left.
    + reflexivity.
    + destruct Hbad as (Hentry & Hcontains & _); [right; right; by eexists|].
      by split.
  - destruct (loadJsConfigs_validates_default_export sampleGetErrorMessage sampleImportFile
                paths "/d/empty.config.ts" {| module_default := JObj [] |}
                sampleGetErrorMessage_keeps_message) as (_ & Hgood & _).
    + right. left.
    + reflexivity.
    + by destruct Hgood as [Hentry _].
Defined.

Lemma loadJsConfigs_failures_follow_paths_witness :
  let paths := ["/a/good.config.ts"; "/b/bad.config.ts"; "/e/missing.config.ts"] in
  ∃ (text : string) (indices : list nat) (entries : list JsValue),
    loadJsConfigs sampleGetErrorMessage sampleImportFile paths = Returned (JStr text) ∧
    JSONStringify (JObj [("Failures", JArr entries)]) = Returned (JStr text) ∧
    StronglySorted lt indices ∧
    (∀ i, i ∈ indices ↔
          ∃ p reason, paths !! i = Some p ∧ loadConfig sampleImportFile p = Thrown reason) ∧
    Forall2 (λ i entry, ∃ p reason,
               paths !! i = Some p ∧ loadConfig sampleImportFile p = Thrown reason ∧
               entry = JObj [("path", JStr p);
                             ("error", JStr (sampleGetErrorMessage reason))])
      indices entries.
Proof.
  intros paths.
  pose (text := match loadJsConfigs sampleGetErrorMessage sampleImportFile paths with
                | Returned (JStr t) => t
                | _ => ""
                end).
  assert (loadJsConfigs sampleGetErrorMessage sampleImportFile paths
          = Returned (JStr text)) as Hret by reflexivity.
  assert (∃ reported, FailuresText reported text) as Hshape.
  { exists (failuresOf sampleGetErrorMessage sampleImportFile paths). reflexivity. }
  destruct (loadJsConfigs_failures_follow_paths sampleGetErrorMessage sampleImportFile
              paths text Hret Hshape)
    as (indices & entries & Htext & Hsorted & Hmem & Hentries).
  by exists text, indices, entries.
Defined.

(** ** The bridge of [cli.ts] *)

Section CliProperties.

Context {Host : Type}.
Variable pluginsIndex : PluginsModule Host.
Variable workspaceIndex : WorkspaceModule Host.

Lemma invoke_eq {A : Type} (f : Host → Completion JsValue A * Host) (w : World Host) :
  invoke f w = (withHost w (f (host w)).2, liftJs (f (host w)).1).
Proof. unfold invoke. by destruct (f (host w)). Qed.

Lemma callBinding_Some {A : Type} (f : Host → Completion JsValue A * Host) (w : World Host) :
  callBinding (Some f) w = (withHost w (f (host w)).2, liftJs (f (host w)).1).
Proof. apply invoke_eq. Qed.

Lemma callBinding_None {A : Type} (w : World Host) :
  callBinding (A := A) None w = (w, Thrown AssertionFailed).
Proof. reflexivity. Qed.

(** A delegated call touches nothing of the bridge but the host state,
    and its failure is never the assertion. *)
Lemma callBinding_frame {A : Type} (binding : option (Host → Completion JsValue A * Host))
    (w : World Host) :
  bindings (callBinding binding w).1 = bindings w ∧
  imports (callBinding binding w).1 = imports w ∧
  pending (callBinding binding w).1 = pending w.
Proof.
  destruct binding as [f|]; [|done]. by rewrite callBinding_Some.
Qed.

Lemma liftJs_not_assertion {A : Type} (c : Completion JsValue A) :
  liftJs c ≠ Thrown AssertionFailed.
Proof. by destruct c. Qed.

Ltac split_call :=
  match goal with
  | |- context [let '(_, _) := ?c in _] => destruct c eqn:?
  end.

(** Where the imports log and the bindings go in one step. *)
Lemma step_imports (ev : Event) (w : World Host) :
  imports (step pluginsIndex workspaceIndex ev w).1 = imports w ++ importsStartedBy ev w.
Proof.
  destruct ev as [path pluginName alias|json|fp id buf rs os sj gj|uri|uri|k|k reason];
    cbn [step importsStartedBy].
  - unfold loadPluginWrapper. destruct (loadPlugin (bindings w)) as [f|]; [|done].
    cbn [option_map unset]. rewrite callBinding_Some. by rewrite app_nil_r.
  - unfold setupRuleConfigsWrapper.
    destruct (callBinding_frame (option_map (λ f, f json) (setupRuleConfigs (bindings w))) w)
      as (_ & Hi & _).
    split_call. cbn [fst] in *. by rewrite Hi, app_nil_r.
  - unfold lintFileWrapper.
    destruct (callBinding_frame
                (option_map (λ f, f fp id buf rs os sj gj) (lintFile (bindings w))) w)
      as (_ & Hi & _).
    split_call. cbn [fst] in *. by rewrite Hi, app_nil_r.
  - unfold createWorkspaceWrapper. destruct (createWorkspace (bindings w)) as [f|]; [|done].
    cbn [option_map unset]. rewrite callBinding_Some. by rewrite app_nil_r.
  - unfold destroyWorkspaceWrapper.
    destruct (callBinding_frame (option_map (λ f, f uri) (destroyWorkspace (bindings w))) w)
      as (_ & Hi & _).
    split_call. cbn [fst] in *. by rewrite Hi, app_nil_r.
  - rewrite app_nil_r. destruct (pending w !! k) as [[path pluginName alias|uri]|]; [| |done].
    + unfold loadPluginThen. cbn [bindings withBindings bindPlugins loadPlugin option_map].
      by rewrite callBinding_Some.
    + unfold createWorkspaceThen.
      cbn [bindings withBindings bindWorkspace createWorkspace option_map].
      by rewrite callBinding_Some.
  - rewrite app_nil_r. by destruct (pending w !! k) as [[path pluginName alias|uri]|].
Qed.

Lemma step_bindings (ev : Event) (w : World Host) :
  bindings (step pluginsIndex workspaceIndex ev w).1 =
  match ev with
  | ImportFulfils k =>
      match pending w !! k with
      | Some (ThenLoadPlugin _ _ _) => bindPlugins pluginsIndex (bindings w)
      | Some (ThenCreateWorkspace _) => bindWorkspace workspaceIndex (bindings w)
      | None => bindings w
      end
  | _ => bindings w
  end.
Proof.
  destruct ev as [path pluginName alias|json|fp id buf rs os sj gj|uri|uri|k|k reason];
    cbn [step].
  - unfold loadPluginWrapper. destruct (loadPlugin (bindings w)) as [f|]; [|done].
    cbn [option_map]. by rewrite callBinding_Some.
  - unfold setupRuleConfigsWrapper.
    destruct (callBinding_frame (option_map (λ f, f json) (setupRuleConfigs (bindings w))) w)
      as (Hb & _).
    split_call. by cbn [fst] in *.
  - unfold lintFileWrapper.
    destruct (callBinding_frame
                (option_map (λ f, f fp id buf rs os sj gj) (lintFile (bindings w))) w)
      as (Hb & _).
    split_call. by cbn [fst] in *.
  - unfold createWorkspaceWrapper. destruct (createWorkspace (bindings w)) as [f|]; [|done].
    cbn [option_map]. by rewrite callBinding_Some.
  - unfold destroyWorkspaceWrapper.
    destruct (callBinding_frame (option_map (λ f, f uri) (destroyWorkspace (bindings w))) w)
      as (Hb & _).
    split_call. by cbn [fst] in *.
  - destruct (pending w !! k) as [[path pluginName alias|uri]|]; [| |done].
    + unfold loadPluginThen. cbn [bindings withBindings bindPlugins loadPlugin option_map].
      by rewrite callBinding_Some.
    + unfold createWorkspaceThen.
      cbn [bindings withBindings bindWorkspace createWorkspace option_map].
      by rewrite callBinding_Some.
  - by destruct (pending w !! k) as [[path pluginName alias|uri]|].
Qed.

Lemma run_app (events more : list Event) (w : World Host) :
  run pluginsIndex workspaceIndex (events ++ more) w =
  run pluginsIndex workspaceIndex more (run pluginsIndex workspaceIndex events w).
Proof. apply foldl_app. Qed.

Lemma run_cons (ev : Event) (events : list Event) (w : World Host) :
  run pluginsIndex workspaceIndex (ev :: events) w =
  run pluginsIndex workspaceIndex events (step pluginsIndex workspaceIndex ev w).1.
Proof. reflexivity. Qed.

(** The bindings of a subsystem change together, and only from [null] to
    the exports of its module. *)
Lemma step_wellBound (ev : Event) (w : World Host) :
  wellBound pluginsIndex workspaceIndex (bindings w) →
  wellBound pluginsIndex workspaceIndex (bindings (step pluginsIndex workspaceIndex ev w).1).
Proof.
  intros [Hp Hw]. rewrite step_bindings.
  destruct ev as [| | | | |k|]; try done.
  destruct (pending w !! k) as [[path pluginName alias|uri]|]; [| |done].
  - split; [by right|]. exact Hw.
  - split; [|by right]. exact Hp.
Qed.

Lemma run_wellBound (events : list Event) (w : World Host) :
  wellBound pluginsIndex workspaceIndex (bindings w) →
  wellBound pluginsIndex workspaceIndex (bindings (run pluginsIndex workspaceIndex events w)).
Proof.
  revert w. induction events as [|ev events IH]; intros w Hw; [done|].
  rewrite run_cons. by apply IH, step_wellBound.
Qed.

Lemma initialWorld_wellBound (h : Host) :
  wellBound pluginsIndex workspaceIndex (bindings (initialWorld h)).
Proof. split; by left. Qed.

Lemma reachable_wellBound (h : Host) (events : list Event) :
  wellBound pluginsIndex workspaceIndex
    (bindings (run pluginsIndex workspaceIndex events (initialWorld h))).
Proof. apply run_wellBound, initialWorld_wellBound. Qed.

(** Once bound, a subsystem stays bound. *)
Lemma step_pluginsLoaded (ev : Event) (w : World Host) :
  pluginsLoaded pluginsIndex (bindings w) →
  pluginsLoaded pluginsIndex (bindings (step pluginsIndex workspaceIndex ev w).1).
Proof.
  intros Hp. rewrite step_bindings.
  destruct ev as [| | | | |k|]; try done.
  by destruct (pending w !! k) as [[path pluginName alias|uri]|].
Qed.

Lemma step_workspaceLoaded (ev : Event) (w : World Host) :
  workspaceLoaded workspaceIndex (bindings w) →
  workspaceLoaded workspaceIndex (bindings (step pluginsIndex workspaceIndex ev w).1).
Proof.
  intros Hp. rewrite step_bindings.
  destruct ev as [| | | | |k|]; try done.
  by destruct (pending w !! k) as [[path pluginName alias|uri]|].
Qed.

Lemma run_pluginsLoaded (events : list Event) (w : World Host) :
  pluginsLoaded pluginsIndex (bindings w) →
  pluginsLoaded pluginsIndex (bindings (run pluginsIndex workspaceIndex events w)).
Proof.
  revert w. induction events as [|ev events IH]; intros w Hw; [done|].
  rewrite run_cons. by apply IH, step_pluginsLoaded.
Qed.


(** In a reachable world a binding that is not [null] means its whole
    subsystem is bound. *)
Lemma wellBound_plugins (b : Bindings Host) :
  wellBound pluginsIndex workspaceIndex b →
  unset (loadPlugin b) = false ∨ unset (lintFile b) = false
    ∨ unset (setupRuleConfigs b) = false →
  pluginsLoaded pluginsIndex b.
Proof.
  intros [[(H1 & H2 & H3)|Hp] _] Hset; [|done].
  rewrite H1, H2, H3 in Hset. by destruct Hset as [|[|]].
Qed.

Lemma wellBound_workspace (b : Bindings Host) :
  wellBound pluginsIndex workspaceIndex b →
  unset (createWorkspace b) = false ∨ unset (destroyWorkspace b) = false →
  workspaceLoaded workspaceIndex b.
Proof.
  intros [_ [(H1 & H2)|Hp]] Hset; [|done].
  rewrite H1, H2 in Hset. by destruct Hset.
Qed.

(** Without a fulfilled import nothing gets bound. *)
Lemma run_without_fulfilment (events : list Event) (w : World Host) :
  forallb (λ ev, negb (isImportFulfils ev)) events = true →
  bindings (run pluginsIndex workspaceIndex events w) = bindings w.
Proof.
  revert w. induction events as [|ev events IH]; intros w Hnone; [done|].
  cbn [forallb] in Hnone. apply andb_prop in Hnone as [Hev Hrest].
  rewrite run_cons, IH by done. rewrite step_bindings. by destruct ev.
Qed.

(** What the two lazy wrappers do, by the state of their marker. *)
Lemma loadPluginWrapper_unset (path : string) (pluginName : option string)
    (alias : bool) (w : World Host) :
  unset (loadPlugin (bindings w)) = true →
  loadPluginWrapper path pluginName alias w =
  (startImport pluginsSpecifier (ThenLoadPlugin path pluginName alias) w, AwaitingImport).
Proof. unfold loadPluginWrapper. by destruct (loadPlugin (bindings w)). Qed.


Lemma createWorkspaceWrapper_unset (workspace : string) (w : World Host) :
  unset (createWorkspace (bindings w)) = true →
  createWorkspaceWrapper workspace w =
  (startImport workspaceSpecifier (ThenCreateWorkspace workspace) w, AwaitingImport).
Proof. unfold createWorkspaceWrapper. by destruct (createWorkspace (bindings w)). Qed.


(** The [.then] callbacks bind first and call what they bound. *)
Lemma loadPluginThen_eq (path : string) (pluginName : option string)
    (alias : bool) (w : World Host) :
  loadPluginThen pluginsIndex path pluginName alias w =
  (withHost (withBindings w (bindPlugins pluginsIndex (bindings w)))
     (pm_loadPlugin pluginsIndex path pluginName alias (host w)).2,
   liftJs (pm_loadPlugin pluginsIndex path pluginName alias (host w)).1).
Proof.
  unfold loadPluginThen. cbn [bindings withBindings bindPlugins loadPlugin option_map].
  by rewrite callBinding_Some.
Qed.

Lemma createWorkspaceThen_eq (workspace : string) (w : World Host) :
  createWorkspaceThen workspaceIndex workspace w =
  (withHost (withBindings w (bindWorkspace workspaceIndex (bindings w)))
     (wm_createWorkspace workspaceIndex workspace (host w)).2,
   liftJs (wm_createWorkspace workspaceIndex workspace (host w)).1).
Proof.
  unfold createWorkspaceThen.
  cbn [bindings withBindings bindWorkspace createWorkspace option_map].
  by rewrite callBinding_Some.
Qed.

End CliProperties.

Section CliClaims.

Context {Host : Type}.
Variable pluginsIndex : PluginsModule Host.
Variable workspaceIndex : WorkspaceModule Host.


(** C6. In every world [w] the bridge can reach: as long as no import has
    been fulfilled all markers are [null]; while the marker of the
    workspace subsystem is [null], [destroyWorkspaceWrapper] fails with
    the assertion, and while the marker of the plugin subsystem is [null],
    so do [setupRuleConfigsWrapper] and [lintFileWrapper], leaving the
    world as it was; once the marker is set, each of them hands the call
    to the export its module bound, and what comes back is never the
    assertion failure. *)
Theorem unloaded_subsystem_calls_fail_the_assertion (h : Host) (events : list Event) :
  let w := run pluginsIndex workspaceIndex events (initialWorld h) in
  (forallb (λ ev, negb (isImportFulfils ev)) events = true →
   unset (createWorkspace (bindings w)) = true ∧ unset (loadPlugin (bindings w)) = true) ∧
  (∀ workspace,
     unset (createWorkspace (bindings w)) = true →
     destroyWorkspaceWrapper workspace w = (w, Thrown AssertionFailed)) ∧
  (∀ optionsJSON,
     unset (loadPlugin (bindings w)) = true →
     setupRuleConfigsWrapper optionsJSON w = (w, Thrown AssertionFailed)) ∧
  (∀ filePath bufferId buffer ruleIds optionsIds settingsJSON globalsJSON,
     unset (loadPlugin (bindings w)) = true →
     lintFileWrapper filePath bufferId buffer ruleIds optionsIds settingsJSON globalsJSON w
     = (w, Thrown AssertionFailed)) ∧
  (∀ workspace,
     unset (createWorkspace (bindings w)) = false →
     destroyWorkspaceWrapper workspace w =
     (withHost w (wm_destroyWorkspace workspaceIndex workspace (host w)).2,
      liftJs (wm_destroyWorkspace workspaceIndex workspace (host w)).1)) ∧
  (∀ optionsJSON,
     unset (loadPlugin (bindings w)) = false →
     setupRuleConfigsWrapper optionsJSON w =
     (withHost w (pm_setupRuleConfigs pluginsIndex optionsJSON (host w)).2,
      liftJs (pm_setupRuleConfigs pluginsIndex optionsJSON (host w)).1)) ∧
  (∀ filePath bufferId buffer ruleIds optionsIds settingsJSON globalsJSON,
     unset (loadPlugin (bindings w)) = false →
     lintFileWrapper filePath bufferId buffer ruleIds optionsIds settingsJSON globalsJSON w =
     (withHost w
        (pm_lintFile pluginsIndex filePath bufferId buffer ruleIds optionsIds settingsJSON
           globalsJSON (host w)).2,
      liftJs
        (pm_lintFile pluginsIndex filePath bufferId buffer ruleIds optionsIds settingsJSON
           globalsJSON (host w)).1)) ∧
  (∀ (A : Type) (c : Completion JsValue A), liftJs c ≠ Thrown AssertionFailed).
Proof.
  intros w.
  pose proof (reachable_wellBound pluginsIndex workspaceIndex h events) as Hwell.
  fold w in Hwell.
  assert (unset (createWorkspace (bindings w)) = true →
          workspaceUnloaded (bindings w)) as Hwsp.
  { destruct Hwell as [_ [Hu|[Hc _]]]; [done|]. by rewrite Hc. }
  assert (unset (loadPlugin (bindings w)) = true → pluginsUnloaded (bindings w)) as Hplg.
  { destruct Hwell as [[Hu|[Hl _]] _]; [done|]. by rewrite Hl. }
  split; [|split; [|split; [|split; [|split; [|split; [|split]]]]]].
  - intros Hnone. unfold w. by rewrite run_without_fulfilment.
  - intros workspace (_ & Hd)%Hwsp. unfold destroyWorkspaceWrapper. by rewrite Hd.
  - intros optionsJSON (_ & _ & Hs)%Hplg. unfold setupRuleConfigsWrapper. by rewrite Hs.
  - intros filePath bufferId buffer ruleIds optionsIds settingsJSON globalsJSON
      (_ & Hl & _)%Hplg.
    unfold lintFileWrapper. by rewrite Hl.
  - intros workspace Hset.
    destruct (wellBound_workspace pluginsIndex workspaceIndex _ Hwell) as (_ & Hd); [auto|].
    unfold destroyWorkspaceWrapper. rewrite Hd. cbn [option_map].
    by rewrite callBinding_Some.
  - intros optionsJSON Hset.
    destruct (wellBound_plugins pluginsIndex workspaceIndex _ Hwell) as (_ & _ & Hs); [auto|].
    unfold setupRuleConfigsWrapper. rewrite Hs. cbn [option_map].
    by rewrite callBinding_Some.
  - intros filePath bufferId buffer ruleIds optionsIds settingsJSON globalsJSON Hset.
    destruct (wellBound_plugins pluginsIndex workspaceIndex _ Hwell) as (_ & Hl & _); [auto|].
    unfold lintFileWrapper. rewrite Hl. cbn [option_map].
    by rewrite callBinding_Some.
  - intros A c. apply liftJs_not_assertion.
Qed.

End CliClaims.

(** C8. When the promise of [lint] resolves, the module sets
    [process.exitCode] to [1] if the value is falsy and leaves the process
    as it was if the value is truthy. *)
Theorem cliMain_exit_code (success : JsValue) (proc : Process) :
  ∃ proc',
    cliMain (Returned success) proc = Returned proc' ∧
    (ToBoolean success = false → exitCode proc' = Some 1%Z ∧ exitCode proc' ≠ Some 0%Z) ∧
    (ToBoolean success = true → proc' = proc).
Proof.
  unfold cliMain. cbn [bindC]. eexists. split; [reflexivity|].
  destruct (ToBoolean success); split; done.
Qed.

(** Two first-use calls that both arrive before the import settles both
    start it; after the first fulfilment the third call goes straight to
    the module. *)
Example overlapping_first_calls :
  let w := run loggingPlugins loggingWorkspace
             [CallLoadPlugin "/p.js" None false; CallLoadPlugin "/q.js" None false;
              ImportFulfils 0; CallLoadPlugin "/r.js" None false; ImportFulfils 0]
             (initialWorld []) in
  imports w = [pluginsSpecifier; pluginsSpecifier] ∧
  host w = ["loadPlugin /p.js"; "loadPlugin /r.js"; "loadPlugin /q.js"] ∧
  pending w = [] ∧
  unset (lintFile (bindings w)) = false.
Proof. repeat split. Qed.


Example destroy_before_create :
  destroyWorkspaceWrapper "file:///project" (initialWorld (Host := list string) [])
  = (initialWorld [], Thrown AssertionFailed).
Proof. reflexivity. Qed.

(** ** The buffer cache behind [lintFileWrapper] *)

Section BufferCacheClaims.

Context {Registry : Type}.
Variable encodeOutcome : PluginsSpec.LintOutcome → option string.
Variable runRules :
  string → list Byte.byte → list Z → list Z → string → string → Registry
  → PluginsSpec.LintOutcome.
Variable noBufferDescription : Z → string.
Variable registryLoadPlugin :
  string → option string → bool → Registry → Completion JsValue string * Registry.
Variable registrySetupRuleConfigs :
  string → Registry → Completion JsValue (option string) * Registry.
Variable registryCreateWorkspace : string → Registry → Completion JsValue unit * Registry.
Variable registryDestroyWorkspace : string → Registry → Completion JsValue unit * Registry.

Notation specPlugins :=
  (PluginsSpec.pluginsIndex encodeOutcome runRules noBufferDescription
     registryLoadPlugin registrySetupRuleConfigs).
Notation specWorkspace :=
  (PluginsSpec.workspaceIndex registryCreateWorkspace registryDestroyWorkspace).

Lemma onRegistry_buffers {A : Type} (f : Registry → Completion JsValue A * Registry)
    (h : PluginsSpec.PluginsHost Registry) :
  PluginsSpec.buffers (PluginsSpec.onRegistry f h).2 = PluginsSpec.buffers h.
Proof. unfold PluginsSpec.onRegistry. by destruct (f (PluginsSpec.registry h)). Qed.

(** Only a lint call that sends content for [bufferId] changes what the
    cache holds for it. *)
Lemma step_buffers (bufferId : Z) (ev : Event)
    (w : World (PluginsSpec.PluginsHost Registry)) :
  wellBound specPlugins specWorkspace (bindings w) →
  populates bufferId ev = false →
  PluginsSpec.buffers (host (step specPlugins specWorkspace ev w).1) !! bufferId
  = PluginsSpec.buffers (host w) !! bufferId.
Proof.
  intros [Hp Hw] Hev.
  destruct ev as [path pluginName alias|json|fp id buf rs os sj gj|uri|uri|k|k reason];
    cbn [step].
  - unfold loadPluginWrapper.
    destruct Hp as [(-> & _)|(-> & _)]; [done|].
    cbn [option_map]. rewrite callBinding_Some. cbn [fst host withHost pm_loadPlugin
      PluginsSpec.pluginsIndex]. by rewrite onRegistry_buffers.
  - unfold setupRuleConfigsWrapper.
    destruct Hp as [(_ & _ & ->)|(_ & _ & ->)]; [done|].
    cbn [option_map]. rewrite callBinding_Some. cbn [fst host withHost pm_setupRuleConfigs
      PluginsSpec.pluginsIndex]. by rewrite onRegistry_buffers.
  - unfold lintFileWrapper.
    destruct Hp as [(_ & -> & _)|(_ & -> & _)]; [done|].
    cbn [option_map]. rewrite callBinding_Some. cbn [fst host withHost pm_lintFile
      PluginsSpec.pluginsIndex]. unfold PluginsSpec.lintFile.
    destruct buf as [content|].
    + cbn [snd PluginsSpec.buffers]. cbn [populates] in Hev.
      apply bool_decide_eq_false in Hev. by rewrite lookup_insert_ne.
    + by destruct (PluginsSpec.buffers (host w) !! id).
  - unfold createWorkspaceWrapper.
    destruct Hw as [(-> & _)|(-> & _)]; [done|].
    cbn [option_map]. rewrite callBinding_Some. cbn [fst host withHost wm_createWorkspace
      PluginsSpec.workspaceIndex]. by rewrite onRegistry_buffers.
  - unfold destroyWorkspaceWrapper.
    destruct Hw as [(_ & ->)|(_ & ->)]; [done|].
    cbn [option_map]. rewrite callBinding_Some. cbn [fst host withHost wm_destroyWorkspace
      PluginsSpec.workspaceIndex]. by rewrite onRegistry_buffers.
  - destruct (pending w !! k) as [[path pluginName alias|uri]|]; [| |done].
    + rewrite loadPluginThen_eq. cbn [fst host withHost dropPending pm_loadPlugin
        PluginsSpec.pluginsIndex]. by rewrite onRegistry_buffers.
    + rewrite createWorkspaceThen_eq. cbn [fst host withHost dropPending wm_createWorkspace
        PluginsSpec.workspaceIndex]. by rewrite onRegistry_buffers.
  - by destruct (pending w !! k) as [[path pluginName alias|uri]|].
Qed.

Lemma run_buffers (bufferId : Z) (events : list Event)
    (w : World (PluginsSpec.PluginsHost Registry)) :
  wellBound specPlugins specWorkspace (bindings w) →
  forallb (λ ev, negb (populates bufferId ev)) events = true →
  PluginsSpec.buffers (host (run specPlugins specWorkspace events w)) !! bufferId
  = PluginsSpec.buffers (host w) !! bufferId.
Proof.
  revert w. induction events as [|ev events IH]; intros w Hwell Hnone; [done|].
  cbn [forallb] in Hnone. apply andb_prop in Hnone as [Hev Hrest].
  apply negb_true_iff in Hev.
  rewrite run_cons, IH; [by apply step_buffers| by apply step_wellBound | done].
Qed.

(** The lint wrapper, once the plugin subsystem is bound, by what the
    cache holds. *)
Lemma lintFileWrapper_no_buffer (filePath : string) (bufferId : Z)
    (ruleIds optionsIds : list Z) (settingsJSON globalsJSON : string)
    (w : World (PluginsSpec.PluginsHost Registry)) :
  pluginsLoaded specPlugins (bindings w) →
  lintFileWrapper filePath bufferId None ruleIds optionsIds settingsJSON globalsJSON w =
  (w, Returned
        (encodeOutcome
           match PluginsSpec.buffers (host w) !! bufferId with
           | Some content =>
               runRules filePath content ruleIds optionsIds settingsJSON globalsJSON
                 (PluginsSpec.registry (host w))
           | None => PluginsSpec.LintError (noBufferDescription bufferId)
           end)).
Proof.
  intros (_ & Hl & _). unfold lintFileWrapper. rewrite Hl. cbn [option_map].
  rewrite callBinding_Some. cbn [pm_lintFile PluginsSpec.pluginsIndex].
  unfold PluginsSpec.lintFile.
  destruct w as [b hst im pe]. cbn [host withHost bindings imports pending].
  by destruct (PluginsSpec.buffers hst !! bufferId).
Qed.

(** C7. With the plugin subsystem bound: after a lint call that sends
    content [content] for [bufferId], and any further events that send
    no content for that id, a lint call for it without a buffer returns
    what linting [content] returns; and when no event so far has sent
    content for [bufferId], a lint call for it without a buffer returns
    the error result, and nothing is thrown. *)
Theorem lintFile_reuses_cached_buffer (r0 : Registry) (before : list Event) :
  let w := run specPlugins specWorkspace before (initialWorld (PluginsSpec.emptyHost r0)) in
  unset (lintFile (bindings w)) = false →
  (∀ bufferId content filePath1 ruleIds1 optionsIds1 settings1 globals1 between
     filePath2 ruleIds2 optionsIds2 settings2 globals2,
     forallb (λ ev, negb (populates bufferId ev)) between = true →
     let w1 := (step specPlugins specWorkspace
                  (CallLintFile filePath1 bufferId (Some content) ruleIds1 optionsIds1
                     settings1 globals1) w).1 in
     let w2 := run specPlugins specWorkspace between w1 in
     lintFileWrapper filePath2 bufferId None ruleIds2 optionsIds2 settings2 globals2 w2 =
     (w2, Returned
            (encodeOutcome
               (runRules filePath2 content ruleIds2 optionsIds2 settings2 globals2
                  (PluginsSpec.registry (host w2)))))) ∧
  (∀ bufferId filePath ruleIds optionsIds settings globals,
     forallb (λ ev, negb (populates bufferId ev)) before = true →
     lintFileWrapper filePath bufferId None ruleIds optionsIds settings globals w =
     (w, Returned (encodeOutcome (PluginsSpec.LintError (noBufferDescription bufferId))))).
Proof.
  intros w Hset.
  pose proof (reachable_wellBound specPlugins specWorkspace (PluginsSpec.emptyHost r0) before)
    as Hwell.
  fold w in Hwell.
  assert (pluginsLoaded specPlugins (bindings w)) as Hloaded
    by (apply (wellBound_plugins specPlugins specWorkspace); auto).
  split.
  - intros bufferId content filePath1 ruleIds1 optionsIds1 settings1 globals1 between
      filePath2 ruleIds2 optionsIds2 settings2 globals2 Hbetween w1 w2.
    assert (PluginsSpec.buffers (host w1) !! bufferId = Some content) as Hcached.
    { unfold w1. cbn [step]. unfold lintFileWrapper.
      destruct Hloaded as (_ & -> & _). cbn [option_map]. rewrite callBinding_Some.
      cbn [fst snd host withHost pm_lintFile PluginsSpec.pluginsIndex PluginsSpec.lintFile
             PluginsSpec.buffers].
      apply lookup_insert_eq. }
    rewrite lintFileWrapper_no_buffer.
    + unfold w2 at 2. rewrite run_buffers, Hcached; [done| |done].
      unfold w1. by apply step_wellBound.
    + unfold w2, w1. by apply run_pluginsLoaded, step_pluginsLoaded.
  - intros bufferId filePath ruleIds optionsIds settings globals Hbefore.
    rewrite lintFileWrapper_no_buffer by done.
    unfold w at 2. rewrite run_buffers; [done|apply initialWorld_wellBound|done].
Qed.

End BufferCacheClaims.

Lemma lintFile_reuses_cached_buffer_witness :
  let w := run samplePluginsIndex sampleWorkspaceIndex
             [CallLoadPlugin "/plugin.js" None false; ImportFulfils 0]
             (initialWorld (PluginsSpec.emptyHost ())) in
  let w1 := (step samplePluginsIndex sampleWorkspaceIndex
               (CallLintFile "/src/a.js" 7 (Some [Byte.x61; Byte.x3b]) [1%Z] [10%Z] "{}" "{}")
               w).1 in
  let w2 := run samplePluginsIndex sampleWorkspaceIndex
              [CallLintFile "/src/b.js" 8 (Some []) [] [] "{}" "{}";
               CallSetupRuleConfigs "[]"] w1 in
  lintFileWrapper "/src/a.js" 7 None [1%Z] [10%Z] "{}" "{}" w2
  = (w2, Returned (Some "[2]")) ∧
  lintFileWrapper "/src/c.js" 9 None [] [] "{}" "{}" w
  = (w, Returned (Some "no buffer 9")).
Proof.
  intros w w1 w2.
  destruct (lintFile_reuses_cached_buffer sampleEncodeOutcome sampleRunRules
              sampleNoBufferDescription (λ path _ _ r, (Returned path, r))
              (λ _ r, (Returned None, r)) (λ _ r, (Returned (), r))
              (λ _ r, (Returned (), r)) ()
              [CallLoadPlugin "/plugin.js" None false; ImportFulfils 0] eq_refl)
    as [Hreuse Hmissing].
  split.
  - exact (Hreuse 7%Z [Byte.x61; Byte.x3b] "/src/a.js" [1%Z] [10%Z] "{}" "{}"
             [CallLintFile "/src/b.js" 8 (Some []) [] [] "{}" "{}";
              CallSetupRuleConfigs "[]"]
             "/src/a.js" [1%Z] [10%Z] "{}" "{}" eq_refl).
  - exact (Hmissing 9%Z "/src/c.js" [] [] "{}" "{}" eq_refl).
Defined.

(** ** The Prettier plugin *)

Section PrettierProperties.

Variable JSONParse : JsValue → Completion JsValue JsValue.

(** [restoreJsonOption], by what the source object holds under [jsonKey]. *)
Lemma restoreJsonOption_cases (source target : gmap string JsValue)
    (jsonKey resultKey : string) :
  restoreJsonOption JSONParse source target jsonKey resultKey =
  match source !! jsonKey with
  | Some (JStr s) =>
      if String.eqb s "" then target
      else match JSONParse (JStr s) with
           | Returned parsed => <[resultKey := parsed]> target
           | Thrown _ => target
           end
  | _ => target
  end.
Proof.
  unfold restoreJsonOption, getProperty.
  destruct (source !! jsonKey) as [v|]; [|done].
  by destruct v.
Qed.

(** The copying loop of [extractSerializableOptions], key by key. *)
Lemma copy_loop_lookup (options : gmap string JsValue) (keys : list string)
    (acc : gmap string JsValue) (key : string) :
  foldl (λ result k,
           if hasProperty options k then <[k := getProperty options k]> result else result)
    acc keys !! key
  = if decide (key ∈ keys) then
      match options !! key with
      | Some v => Some v
      | None => acc !! key
      end
    else acc !! key.
Proof.
  revert acc. induction keys as [|k keys IH]; intros acc.
  { cbn [foldl]. by rewrite decide_False by apply not_elem_of_nil. }
  cbn [foldl]. rewrite IH.
  assert ((if hasProperty options k then <[k := getProperty options k]> acc else acc) !! key
          = if decide (key = k) then
              match options !! key with Some v => Some v | None => acc !! key end
            else acc !! key) as Hstep.
  { unfold hasProperty, getProperty. destruct (decide (key = k)) as [->|Hne].
    - destruct (options !! k); [by rewrite lookup_insert_eq|done].
    - destruct (options !! k); [by rewrite lookup_insert_ne|done]. }
  rewrite Hstep.
  destruct (decide (key ∈ keys)) as [Hin|Hnin], (decide (key = k)) as [Heq|Hne],
    (decide (key ∈ k :: keys)) as [Hin'|Hnin']; try done;
    try (exfalso; apply Hnin'; first [by right | rewrite Heq; by left]);
    try (by destruct (options !! key));
    try (by apply elem_of_cons in Hin' as [?|?]).
Qed.

Lemma restored_keys_not_copied (key : string) :
  key ∈ serializableKeys →
  key ≠ "experimentalSortImports" ∧ key ≠ "experimentalTailwindcss".
Proof.
  intros Hin. split; intros ->; revert Hin.
  - apply (bool_decide_unpack ("experimentalSortImports" ∉ serializableKeys)).
    by vm_compute.
  - apply (bool_decide_unpack ("experimentalTailwindcss" ∉ serializableKeys)).
    by vm_compute.
Qed.

(** The result of [extractSerializableOptions], key by key. *)
Lemma extractSerializableOptions_lookup (options : gmap string JsValue) (key : string) :
  extractSerializableOptions JSONParse options !! key =
  if decide (key ∈ serializableKeys) then options !! key
  else if decide (key = "experimentalTailwindcss") then
    restoreJsonOption JSONParse options ∅ "_experimentalTailwindcssJson"
      "experimentalTailwindcss" !! key
  else if decide (key = "experimentalSortImports") then
    restoreJsonOption JSONParse options ∅ "_experimentalSortImportsJson"
      "experimentalSortImports" !! key
  else None.
Proof.
  unfold extractSerializableOptions.
  set (copied := foldl _ ∅ serializableKeys).
  assert (∀ k, copied !! k = if decide (k ∈ serializableKeys) then options !! k else None)
    as Hcopied.
  { intros k. unfold copied. rewrite copy_loop_lookup, lookup_empty.
    destruct (decide (k ∈ serializableKeys)); [|done]. by destruct (options !! k). }
  assert (∀ source target jsonKey resultKey k,
            restoreJsonOption JSONParse source target jsonKey resultKey !! k
            = if decide (k = resultKey) then
                match restoreJsonOption JSONParse source ∅ jsonKey resultKey !! k with
                | Some v => Some v
                | None => target !! k
                end
              else target !! k) as Hrestore.
  { intros source target jsonKey resultKey k. rewrite !restoreJsonOption_cases.
    destruct (decide (k = resultKey)) as [->|Hne].
    - destruct (source !! jsonKey) as [[]|]; try by rewrite lookup_empty.
      destruct (String.eqb s ""); [by rewrite lookup_empty|].
      destruct (JSONParse (JStr s)); [by rewrite !lookup_insert_eq|by rewrite lookup_empty].
    - destruct (source !! jsonKey) as [[]|]; try done.
      destruct (String.eqb s ""); [done|].
      destruct (JSONParse (JStr s)); [by rewrite lookup_insert_ne|done]. }
  rewrite Hrestore, (Hrestore _ copied), Hcopied.
  destruct (decide (key ∈ serializableKeys)) as [Hin|Hnin].
  - rewrite !decide_False; [done| |].
    + intros ->. by destruct (restored_keys_not_copied _ Hin).
    + intros ->. by destruct (restored_keys_not_copied _ Hin).
  - destruct (decide (key = "experimentalTailwindcss")) as [->|Hne1].
    + rewrite decide_False by done.
      by destruct (restoreJsonOption _ _ ∅ _ _ !! _).
    + destruct (decide (key = "experimentalSortImports")) as [->|Hne2]; [|done].
      by destruct (restoreJsonOption _ _ ∅ _ _ !! _).
Qed.

(** X1. [restoreJsonOption] writes no key of [target] but [resultKey];
    when [source] holds under [jsonKey] a non-empty string that
    [JSON.parse] parses, it sets [resultKey] to the parsed value; in every
    other case, a [JSON.parse] that throws included, it leaves [target]
    as it was. *)
Theorem restoreJsonOption_writes_parsed_or_nothing
    (source target : gmap string JsValue) (jsonKey resultKey : string) :
  let target' := restoreJsonOption JSONParse source target jsonKey resultKey in
  (∀ key, key ≠ resultKey → target' !! key = target !! key) ∧
  (∀ s parsed,
     source !! jsonKey = Some (JStr s) → s ≠ "" → JSONParse (JStr s) = Returned parsed →
     target' = <[resultKey := parsed]> target ∧ target' !! resultKey = Some parsed) ∧
  (∀ s e, source !! jsonKey = Some (JStr s) → JSONParse (JStr s) = Thrown e →
          target' = target) ∧
  ((∀ s, s ≠ "" → source !! jsonKey ≠ Some (JStr s)) → target' = target).
Proof.
  intros target'. unfold target'. rewrite restoreJsonOption_cases.
  destruct (source !! jsonKey) as [v|] eqn:Hv.
  2: { repeat split; auto; intros; done. }
  destruct v; try (repeat split; auto; intros; done).
  destruct (String.eqb s "") eqn:Hs.
  { apply String.eqb_eq in Hs as ->. repeat split; auto; intros; congruence. }
  apply String.eqb_neq in Hs.
  destruct (JSONParse (JStr s)) as [parsed|e] eqn:Hparse.
  - split; [|split; [|split]].
    + intros key Hne. by rewrite lookup_insert_ne.
    + intros s' parsed' [= <-] _ Hparse'.
      assert (parsed' = parsed) as -> by congruence.
      split; [done|apply lookup_insert_eq].
    + intros s' e [= <-]. congruence.
    + intros Hnone. by destruct (Hnone s Hs).
  - repeat split; auto; intros; congruence.
Qed.

(** X2. [extractSerializableOptions] hands on no key but the thirteen of
    [serializableKeys] and the two restored ones. *)
Theorem extractSerializableOptions_keys (options : gmap string JsValue) :
  dom (extractSerializableOptions JSONParse options) ⊆
  list_to_set serializableKeys ∪ {["experimentalSortImports"; "experimentalTailwindcss"]}.
Proof.
  intros key [v Hv]%elem_of_dom. rewrite extractSerializableOptions_lookup in Hv.
  destruct (decide (key ∈ serializableKeys)) as [Hin|_].
  { apply elem_of_union_l. by apply elem_of_list_to_set. }
  destruct (decide (key = "experimentalTailwindcss")) as [->|_]; [set_solver|].
  destruct (decide (key = "experimentalSortImports")) as [->|_]; [set_solver|done].
Qed.

(** X3. For a key of [serializableKeys], the result has it exactly when
    the options have it, with the same value, whatever that value is. *)
Theorem extractSerializableOptions_copies (options : gmap string JsValue) (key : string) :
  key ∈ serializableKeys →
  extractSerializableOptions JSONParse options !! key = options !! key.
Proof.
  intros Hin. rewrite extractSerializableOptions_lookup. by rewrite decide_True.
Qed.

(** X4. The two restored keys depend on the JSON strings alone: each is
    the parsed value of its [...Json] option when that is a non-empty
    string that parses, and absent otherwise; a value the options hold
    under the restored key itself is not handed on. *)
Theorem extractSerializableOptions_restores (options : gmap string JsValue) :
  let restored jsonKey :=
    match options !! jsonKey with
    | Some (JStr s) =>
        if String.eqb s "" then None
        else match JSONParse (JStr s) with
             | Returned parsed => Some parsed
             | Thrown _ => None
             end
    | _ => None
    end in
  extractSerializableOptions JSONParse options !! "experimentalSortImports"
    = restored "_experimentalSortImportsJson" ∧
  extractSerializableOptions JSONParse options !! "experimentalTailwindcss"
    = restored "_experimentalTailwindcssJson".
Proof.
  intros restored. unfold restored.
  rewrite !extractSerializableOptions_lookup, !restoreJsonOption_cases.
  split.
  - rewrite decide_False, decide_False, decide_True; [|done|done|].
    + destruct (options !! "_experimentalSortImportsJson") as [[]|]; try done.
      destruct (String.eqb s ""); [done|].
      by destruct (JSONParse (JStr s)); [rewrite lookup_insert_eq|].
    + intros Hin. by destruct (restored_keys_not_copied _ Hin).
  - rewrite decide_False, decide_True; [|done|].
    + destruct (options !! "_experimentalTailwindcssJson") as [[]|]; try done.
      destruct (String.eqb s ""); [done|].
      by destruct (JSONParse (JStr s)); [rewrite lookup_insert_eq|].
    + intros Hin. by destruct (restored_keys_not_copied _ Hin).
Qed.

(** X5. When the two internal options have the default the plugin
    declares for them, nothing is restored: the result holds keys of
    [serializableKeys] only. *)
Theorem extractSerializableOptions_defaults (options : gmap string JsValue) :
  options !! "_experimentalSortImportsJson"
    = pluginOptionDefaults !! "_experimentalSortImportsJson" →
  options !! "_experimentalTailwindcssJson"
    = pluginOptionDefaults !! "_experimentalTailwindcssJson" →
  dom (extractSerializableOptions JSONParse options) ⊆ list_to_set serializableKeys.
Proof.
  intros Hsort Htail key [v Hv]%elem_of_dom.
  destruct (decide (key ∈ serializableKeys)) as [Hin|Hnin].
  { by apply elem_of_list_to_set. }
  pose proof (extractSerializableOptions_restores options) as [Hs Ht].
  cbv zeta in Hs, Ht. rewrite Hsort in Hs. rewrite Htail in Ht.
  rewrite extractSerializableOptions_lookup in Hv. rewrite decide_False in Hv by done.
  rewrite extractSerializableOptions_lookup in Hs, Ht.
  destruct (decide (key = "experimentalTailwindcss")) as [->|_].
  { rewrite decide_False, decide_True in Ht; [|done|].
    - rewrite Ht in Hv. by vm_compute in Hv.
    - intros Hin. by destruct (restored_keys_not_copied _ Hin). }
  destruct (decide (key = "experimentalSortImports")) as [->|_]; [|done].
  rewrite decide_False, decide_False, decide_True in Hs; [|done|done|].
  - rewrite Hs in Hv. by vm_compute in Hv.
  - intros Hin. by destruct (restored_keys_not_copied _ Hin).
Qed.

End PrettierProperties.

Lemma extractSerializableOptions_copies_witness :
  extractSerializableOptions sampleJSONParse sampleOptions !! "semi" = Some (JBool false).
Proof.
  rewrite (extractSerializableOptions_copies sampleJSONParse sampleOptions "semi").
  - reflexivity.
  - apply (bool_decide_unpack ("semi" ∈ serializableKeys)). by vm_compute.
Defined.

Lemma extractSerializableOptions_defaults_witness :
  dom (extractSerializableOptions sampleJSONParse
         (<["printWidth" := JNum 100]> pluginOptionDefaults))
  ⊆ list_to_set serializableKeys.
Proof.
  apply (extractSerializableOptions_defaults sampleJSONParse
           (<["printWidth" := JNum 100]> pluginOptionDefaults)); reflexivity.
Defined.

(** The sample options: the plugin list, the parser name and the object
    option given directly are dropped; one JSON option is restored, the
    malformed one is not. *)
Example extractSerializableOptions_sample :
  extractSerializableOptions sampleJSONParse sampleOptions
  = {[ "semi" := JBool false; "tabWidth" := JNum 4;
       "experimentalSortImports" := JObj [] ]}.
Proof. by vm_compute. Qed.

(** *** The printer *)

Lemma splitLines_length (str : string) :
  length (splitLines str) = S (countNewlines str).
Proof.
  induction str as [|c rest IH]; [done|]. cbn [splitLines countNewlines].
  destruct (Ascii.eqb c newline); cbn [length]; [by rewrite IH|].
  destruct (splitLines rest); [done|]. cbn [length] in *. lia.
Qed.

Lemma splitLines_no_newline (str : string) :
  Forall (λ line, countNewlines line = 0) (splitLines str).
Proof.
  induction str as [|c rest IH]; [by repeat constructor|]. cbn [splitLines].
  destruct (Ascii.eqb c newline) eqn:Hc; [by constructor|].
  destruct (splitLines rest) as [|line lines]; [by repeat constructor; cbn; rewrite Hc|].
  apply Forall_cons in IH as [Hline Hlines]. constructor; [|done].
  cbn [countNewlines]. by rewrite Hc, Hline.
Qed.

Lemma partsText_join_cons (c : ascii) (line : string) (docs : list Doc) :
  partsText (join DocHardline (DocString (String c line) :: docs))
  = String c (partsText (join DocHardline (DocString line :: docs))).
Proof. by destruct docs. Qed.

(** The text parts and hard lines of the joined lines spell the string. *)
Lemma partsText_join_splitLines (str : string) :
  partsText (join DocHardline (map DocString (splitLines str))) = str.
Proof.
  induction str as [|c rest IH]; [done|]. cbn [splitLines].
  destruct (Ascii.eqb c newline) eqn:Hc.
  - apply Ascii.eqb_eq in Hc as ->.
    pose proof (splitLines_length rest) as Hlen.
    destruct (splitLines rest) as [|line lines]; [done|].
    change (String newline
              (partsText (join DocHardline (map DocString (line :: lines))))
            = String newline rest).
    by rewrite IH.
  - pose proof (splitLines_length rest) as Hlen.
    destruct (splitLines rest) as [|line lines]; [done|].
    cbn [map] in *. by rewrite partsText_join_cons, IH.
Qed.

Lemma joinNewline_cons (c : ascii) (line : string) (lines : list string) :
  joinNewline (String c line :: lines) = String c (joinNewline (line :: lines)).
Proof. by destruct lines. Qed.

(** Splitting at the line feeds and joining with line feeds gives the
    string back. *)
Lemma joinNewline_splitLines (str : string) : joinNewline (splitLines str) = str.
Proof.
  induction str as [|c rest IH]; [done|]. cbn [splitLines].
  pose proof (splitLines_length rest) as Hlen.
  destruct (Ascii.eqb c newline) eqn:Hc.
  - apply Ascii.eqb_eq in Hc as ->.
    destruct (splitLines rest) as [|line lines]; [done|].
    change (String newline (joinNewline (line :: lines)) = String newline rest).
    by rewrite IH.
  - destruct (splitLines rest) as [|line lines]; [done|].
    by rewrite joinNewline_cons, IH.
Qed.

Lemma join_hardlines (lines : list string) :
  countHardlines (join DocHardline (map DocString lines)) = pred (length lines).
Proof.
  induction lines as [|line lines IH]; [done|].
  destruct lines as [|line' lines]; [done|].
  cbn [map join countHardlines length pred] in *. by rewrite IH.
Qed.

(** X6. The printer returns a string without a line feed as it is; for
    any other string it returns the lines of the string, that is the
    pieces without a line feed that give the string back when joined with
    line feeds, as an array with a [hardline] between each two of them,
    one per line feed. *)
Theorem print_single_or_joined (str : string) :
  (countNewlines str = 0 ∧ print str = DocString str) ∨
  (0 < countNewlines str ∧
   ∃ lines,
     print str = DocArray (join DocHardline (map DocString lines)) ∧
     joinNewline lines = str ∧
     Forall (λ line, countNewlines line = 0) lines ∧
     length lines = S (countNewlines str) ∧
     countHardlines (join DocHardline (map DocString lines)) = countNewlines str).
Proof.
  unfold print. pose proof (splitLines_length str) as Hlen.
  destruct (countNewlines str) as [|n] eqn:Hn.
  - left. by rewrite Hlen.
  - right. split; [lia|]. exists (splitLines str). rewrite Hlen. cbn [Nat.eqb].
    split; [done|]. split; [apply joinNewline_splitLines|].
    split; [apply splitLines_no_newline|]. split; [done|].
    by rewrite join_hardlines, Hlen.
Qed.

(** X7. Nothing of the formatted string is lost or added by the printer:
    the strings of the doc, with a line feed for each [hardline], spell
    the string again. *)
Theorem print_keeps_text (str : string) : docText (print str) = str.
Proof.
  unfold print. destruct (length (splitLines str) =? 1)%nat; [done|].
  change (partsText (join DocHardline (map DocString (splitLines str))) = str).
  apply partsText_join_splitLines.
Qed.

Section ParserProperties.

Variable JSONParse : JsValue → Completion JsValue JsValue.
Variable formatToDoc :
  string → SourceType → JsValue → gmap string JsValue → EmbeddedCallback → TailwindCallback
  → Completion JsValue string.
Variable formatEmbeddedCode :
  string → string → gmap string JsValue → Completion JsValue JsValue.
Variable sortTailwindClasses :
  JsValue → list string → gmap string JsValue → Completion JsValue JsValue.

(** X8. The parser calls [formatToDoc] once, with its own source type,
    with the file path of the options or "unknown" when that is
    [undefined] or [null] (an empty path stays), with exactly the object
    [extractSerializableOptions] makes of the options, with an
    embedded-code callback that formats with the options of this call
    whatever options it is called with, and with a Tailwind callback that
    sorts with the options it is called with. *)
Theorem parse_calls_formatToDoc (sourceType : SourceType) (text : string)
    (options : gmap string JsValue) :
  ∃ filepath embedded tailwind,
    parse (createOxcParser JSONParse formatToDoc formatEmbeddedCode sortTailwindClasses
             sourceType) text options
    = formatToDoc text sourceType filepath
        (extractSerializableOptions JSONParse options) embedded tailwind ∧
    filepath =
      match options !! "filepath" with
      | None | Some JUndefined | Some JNull => JStr "unknown"
      | Some path => path
      end ∧
    (∀ opts parserName code,
       embedded opts parserName code = formatEmbeddedCode code parserName options) ∧
    (∀ fp opts classes, tailwind fp opts classes = sortTailwindClasses fp classes opts).
Proof.
  eexists _, _, _. split; [reflexivity|]. split; [|done].
  unfold getProperty. by destruct (options !! "filepath") as [[]|].
Qed.

End ParserProperties.

(** ** More on the bridge of [cli.ts] *)

Section CliExtras.

Context {Host : Type}.
Variable pluginsIndex : PluginsModule Host.
Variable workspaceIndex : WorkspaceModule Host.

Lemma importCount_app (specifier : string) (l1 l2 : list string) :
  importCount specifier (l1 ++ l2) = importCount specifier l1 + importCount specifier l2.
Proof. unfold importCount. by rewrite filter_app, length_app. Qed.

(** The callbacks that wait keep a property that every new one has. *)
Lemma step_pending_Forall (P : PendingImport → Prop) (ev : Event) (w : World Host) :
  Forall P (pending w) →
  (∀ path pluginName alias,
     ev = CallLoadPlugin path pluginName alias → P (ThenLoadPlugin path pluginName alias)) →
  (∀ workspace, ev = CallCreateWorkspace workspace → P (ThenCreateWorkspace workspace)) →
  Forall P (pending (step pluginsIndex workspaceIndex ev w).1).
Proof.
  intros Hpending Hplugin Hworkspace.
  destruct ev as [path pluginName alias|json|fp id buf rs os sj gj|uri|uri|k|k reason];
    cbn [step].
  - unfold loadPluginWrapper. destruct (loadPlugin (bindings w)) as [f|].
    + cbn [option_map]. by rewrite callBinding_Some.
    + cbn [fst pending startImport]. apply Forall_app. split; [done|].
      constructor; [by apply Hplugin|constructor].
  - unfold setupRuleConfigsWrapper.
    destruct (callBinding_frame (option_map (λ f, f json) (setupRuleConfigs (bindings w))) w)
      as (_ & _ & Hp).
    destruct (callBinding _ w). cbn [fst] in *. by rewrite Hp.
  - unfold lintFileWrapper.
    destruct (callBinding_frame
                (option_map (λ f, f fp id buf rs os sj gj) (lintFile (bindings w))) w)
      as (_ & _ & Hp).
    destruct (callBinding _ w). cbn [fst] in *. by rewrite Hp.
  - unfold createWorkspaceWrapper. destruct (createWorkspace (bindings w)) as [f|].
    + cbn [option_map]. by rewrite callBinding_Some.
    + cbn [fst pending startImport]. apply Forall_app. split; [done|].
      constructor; [by apply Hworkspace|constructor].
  - unfold destroyWorkspaceWrapper.
    destruct (callBinding_frame (option_map (λ f, f uri) (destroyWorkspace (bindings w))) w)
      as (_ & _ & Hp).
    destruct (callBinding _ w). cbn [fst] in *. by rewrite Hp.
  - destruct (pending w !! k) as [[path pluginName alias|uri]|]; [| |done].
    + rewrite loadPluginThen_eq. cbn [fst pending withHost withBindings dropPending].
      by apply Forall_delete.
    + rewrite createWorkspaceThen_eq. cbn [fst pending withHost withBindings dropPending].
      by apply Forall_delete.
  - destruct (pending w !! k) as [[path pluginName alias|uri]|]; [| |done];
      cbn [fst pending dropPending]; by apply Forall_delete.
Qed.

(** As long as [loadPlugin] was not called, nothing of the plugin
    subsystem is bound, waiting or imported. *)
Lemma run_without_loadPlugin (events : list Event) (w : World Host) :
  forallb (λ ev, negb (isLoadPluginCall ev)) events = true →
  pluginsUnloaded (bindings w) →
  Forall (λ cb, isThenLoadPlugin cb = false) (pending w) →
  importCount pluginsSpecifier (imports w) = 0 →
  let w' := run pluginsIndex workspaceIndex events w in
  pluginsUnloaded (bindings w') ∧
  Forall (λ cb, isThenLoadPlugin cb = false) (pending w') ∧
  importCount pluginsSpecifier (imports w') = 0.
Proof.
  revert w. induction events as [|ev events IH]; intros w Hnone Hu Hp Hi; [done|].
  cbn [forallb] in Hnone. apply andb_prop in Hnone as [Hev Hrest].
  apply negb_true_iff in Hev. rewrite run_cons. apply IH; [done| | |].
  - rewrite step_bindings. destruct ev as [| | | | |k|]; try done.
    destruct (pending w !! k) as [[path pluginName alias|uri]|] eqn:Hk; [|by destruct Hu|done].
    by apply (Forall_lookup_1 _ _ _ _ Hp) in Hk.
  - apply step_pending_Forall; [done| |done]. by intros path pluginName alias ->.
  - rewrite step_imports, importCount_app, Hi.
    by destruct ev; cbn [importsStartedBy];
      try destruct (unset (createWorkspace (bindings w))).
Qed.

Lemma run_without_createWorkspace (events : list Event) (w : World Host) :
  forallb (λ ev, negb (isCreateWorkspaceCall ev)) events = true →
  workspaceUnloaded (bindings w) →
  Forall (λ cb, isThenLoadPlugin cb = true) (pending w) →
  importCount workspaceSpecifier (imports w) = 0 →
  let w' := run pluginsIndex workspaceIndex events w in
  workspaceUnloaded (bindings w') ∧
  Forall (λ cb, isThenLoadPlugin cb = true) (pending w') ∧
  importCount workspaceSpecifier (imports w') = 0.
Proof.
  revert w. induction events as [|ev events IH]; intros w Hnone Hu Hp Hi; [done|].
  cbn [forallb] in Hnone. apply andb_prop in Hnone as [Hev Hrest].
  apply negb_true_iff in Hev. rewrite run_cons. apply IH; [done| | |].
  - rewrite step_bindings. destruct ev as [| | | | |k|]; try done.
    destruct (pending w !! k) as [[path pluginName alias|uri]|] eqn:Hk; [by destruct Hu| |done].
    by apply (Forall_lookup_1 _ _ _ _ Hp) in Hk.
  - apply step_pending_Forall; [done|done|]. by intros workspace ->.
  - rewrite step_imports, importCount_app, Hi.
    by destruct ev; cbn [importsStartedBy];
      try destruct (unset (loadPlugin (bindings w))).
Qed.

(** Once a subsystem is bound, its module is not imported again. *)
Lemma run_importCount_pluginsLoaded (events : list Event) (w : World Host) :
  pluginsLoaded pluginsIndex (bindings w) →
  importCount pluginsSpecifier (imports (run pluginsIndex workspaceIndex events w))
  = importCount pluginsSpecifier (imports w).
Proof.
  revert w. induction events as [|ev events IH]; intros w Hl; [done|].
  rewrite run_cons, IH by (by apply step_pluginsLoaded).
  rewrite step_imports, importCount_app. destruct Hl as (Hl & _).
  destruct ev; cbn [importsStartedBy]; rewrite ?Hl; cbn [unset];
    try destruct (unset (createWorkspace (bindings w))); by rewrite Nat.add_0_r.
Qed.

Lemma run_importCount_workspaceLoaded (events : list Event) (w : World Host) :
  workspaceLoaded workspaceIndex (bindings w) →
  importCount workspaceSpecifier (imports (run pluginsIndex workspaceIndex events w))
  = importCount workspaceSpecifier (imports w).
Proof.
  revert w. induction events as [|ev events IH]; intros w Hl; [done|].
  rewrite run_cons, IH by (by apply step_workspaceLoaded).
  rewrite step_imports, importCount_app. destruct Hl as (Hl & _).
  destruct ev; cbn [importsStartedBy]; rewrite ?Hl; cbn [unset];
    try destruct (unset (loadPlugin (bindings w))); by rewrite Nat.add_0_r.
Qed.

(** X9. The two subsystems load independently: as long as
    [createWorkspace] was never called, whatever else happened, the
    workspace module was not imported and [destroyWorkspace] fails the
    assertion; as long as [loadPlugin] was never called, the plugin module
    was not imported and [setupRuleConfigs] and [lintFile] fail it. *)
Theorem subsystems_load_independently (h : Host) (events : list Event) :
  let w := run pluginsIndex workspaceIndex events (initialWorld h) in
  (forallb (λ ev, negb (isCreateWorkspaceCall ev)) events = true →
   importCount workspaceSpecifier (imports w) = 0 ∧
   ∀ workspace, destroyWorkspaceWrapper workspace w = (w, Thrown AssertionFailed)) ∧
  (forallb (λ ev, negb (isLoadPluginCall ev)) events = true →
   importCount pluginsSpecifier (imports w) = 0 ∧
   (∀ optionsJSON, setupRuleConfigsWrapper optionsJSON w = (w, Thrown AssertionFailed)) ∧
   (∀ filePath bufferId buffer ruleIds optionsIds settingsJSON globalsJSON,
      lintFileWrapper filePath bufferId buffer ruleIds optionsIds settingsJSON globalsJSON w
      = (w, Thrown AssertionFailed))).
Proof.
  intros w. split.
  - intros Hnone.
    destruct (run_without_createWorkspace events (initialWorld h) Hnone)
      as ((_ & Hd) & _ & Hcount); [done|constructor|done|].
    fold w in Hd, Hcount. split; [done|]. intros workspace.
    unfold destroyWorkspaceWrapper. by rewrite Hd.
  - intros Hnone.
    destruct (run_without_loadPlugin events (initialWorld h) Hnone)
      as ((_ & Hl & Hs) & _ & Hcount); [done|constructor|done|].
    fold w in Hl, Hs, Hcount. split; [done|]. split.
    + intros optionsJSON. unfold setupRuleConfigsWrapper. by rewrite Hs.
    + intros filePath bufferId buffer ruleIds optionsIds settingsJSON globalsJSON.
      unfold lintFileWrapper. by rewrite Hl.
Qed.

(** X10. When the import started by the first [loadPlugin] call fulfils
    before anything else happens, the plugin module is imported exactly
    once in the whole run, whatever follows; the same holds for
    [createWorkspace] and the workspace module. *)
Theorem first_use_imports_module_once (h : Host) (before rest : list Event) :
  let w0 := run pluginsIndex workspaceIndex before (initialWorld h) in
  (forallb (λ ev, negb (isLoadPluginCall ev)) before = true →
   ∀ path pluginName alias,
     importCount pluginsSpecifier
       (imports (run pluginsIndex workspaceIndex
                   (CallLoadPlugin path pluginName alias
                    :: ImportFulfils (length (pending w0)) :: rest) w0)) = 1) ∧
  (forallb (λ ev, negb (isCreateWorkspaceCall ev)) before = true →
   ∀ workspace,
     importCount workspaceSpecifier
       (imports (run pluginsIndex workspaceIndex
                   (CallCreateWorkspace workspace
                    :: ImportFulfils (length (pending w0)) :: rest) w0)) = 1).
Proof.
  intros w0. split.
  - intros Hnone path pluginName alias.
    destruct (run_without_loadPlugin before (initialWorld h) Hnone)
      as ((Hl & _) & _ & Hcount); [done|constructor|done|].
    fold w0 in Hl, Hcount.
    rewrite !run_cons. cbn [step]. rewrite loadPluginWrapper_unset by (by rewrite Hl).
    cbn [fst pending startImport]. rewrite list_lookup_middle by done.
    rewrite loadPluginThen_eq. cbn [fst].
    rewrite run_importCount_pluginsLoaded by done.
    cbn [imports withHost withBindings dropPending startImport].
    by rewrite importCount_app, Hcount.
  - intros Hnone workspace.
    destruct (run_without_createWorkspace before (initialWorld h) Hnone)
      as ((Hc & _) & _ & Hcount); [done|constructor|done|].
    fold w0 in Hc, Hcount.
    rewrite !run_cons. cbn [step]. rewrite createWorkspaceWrapper_unset by (by rewrite Hc).
    cbn [fst pending startImport]. rewrite list_lookup_middle by done.
    rewrite createWorkspaceThen_eq. cbn [fst].
    rewrite run_importCount_workspaceLoaded by done.
    cbn [imports withHost withBindings dropPending startImport].
    by rewrite importCount_app, Hcount.
Qed.

(** X11. A dynamic import that fails binds nothing and changes neither
    the host state nor the log of imports; the promise of the call that
    started it is rejected with the reason of the import; and since the
    marker is still [null], the next call starts the import again. *)
Theorem rejected_import_binds_nothing (h : Host) (events : list Event)
    (k : nat) (reason : JsValue) :
  let w := run pluginsIndex workspaceIndex events (initialWorld h) in
  let w' := (step pluginsIndex workspaceIndex (ImportRejects k reason) w).1 in
  bindings w' = bindings w ∧ host w' = host w ∧ imports w' = imports w ∧
  (∀ path pluginName alias,
     pending w !! k = Some (ThenLoadPlugin path pluginName alias) →
     (step pluginsIndex workspaceIndex (ImportRejects k reason) w).2
     = LoadPluginSettles (Thrown (Exception reason))) ∧
  (∀ workspace,
     pending w !! k = Some (ThenCreateWorkspace workspace) →
     (step pluginsIndex workspaceIndex (ImportRejects k reason) w).2
     = CreateWorkspaceSettles (Thrown (Exception reason))) ∧
  (∀ path pluginName alias,
     unset (loadPlugin (bindings w)) = true →
     imports (step pluginsIndex workspaceIndex (CallLoadPlugin path pluginName alias) w').1
     = imports w ++ [pluginsSpecifier]) ∧
  (∀ workspace,
     unset (createWorkspace (bindings w)) = true →
     imports (step pluginsIndex workspaceIndex (CallCreateWorkspace workspace) w').1
     = imports w ++ [workspaceSpecifier]).
Proof.
  intros w w'.
  assert (bindings w' = bindings w) as Hb by (unfold w'; by rewrite step_bindings).
  assert (imports w' = imports w) as Hi
    by (unfold w'; by rewrite step_imports, app_nil_r).
  split; [done|]. split; [|split; [done|]].
  { unfold w'. cbn [step]. by destruct (pending w !! k) as [[]|]. }
  split; [|split; [|split]].
  - intros path pluginName alias Hk. cbn [step]. by rewrite Hk.
  - intros workspace Hk. cbn [step]. by rewrite Hk.
  - intros path pluginName alias Hunset.
    rewrite step_imports, Hi. cbn [importsStartedBy]. by rewrite Hb, Hunset.
  - intros workspace Hunset.
    rewrite step_imports, Hi. cbn [importsStartedBy]. by rewrite Hb, Hunset.
Qed.

(** X12. The callback binds before it calls: when the import of a
    subsystem fulfils, its functions are bound whatever the first call
    into the module returns or throws, so that the calls that depend on
    the subsystem are delegated from then on. *)
Theorem subsystem_is_bound_whatever_the_first_call_does (h : Host) (events : list Event)
    (k : nat) :
  let w := run pluginsIndex workspaceIndex events (initialWorld h) in
  let w' := (step pluginsIndex workspaceIndex (ImportFulfils k) w).1 in
  (∀ path pluginName alias,
     pending w !! k = Some (ThenLoadPlugin path pluginName alias) →
     pluginsLoaded pluginsIndex (bindings w') ∧
     ∀ optionsJSON,
       setupRuleConfigsWrapper optionsJSON w' =
       (withHost w' (pm_setupRuleConfigs pluginsIndex optionsJSON (host w')).2,
        liftJs (pm_setupRuleConfigs pluginsIndex optionsJSON (host w')).1)) ∧
  (∀ workspace,
     pending w !! k = Some (ThenCreateWorkspace workspace) →
     workspaceLoaded workspaceIndex (bindings w') ∧
     ∀ uri,
       destroyWorkspaceWrapper uri w' =
       (withHost w' (wm_destroyWorkspace workspaceIndex uri (host w')).2,
        liftJs (wm_destroyWorkspace workspaceIndex uri (host w')).1)).
Proof.
  intros w w'. split.
  - intros path pluginName alias Hk.
    assert (pluginsLoaded pluginsIndex (bindings w')) as Hl
      by (unfold w'; by rewrite step_bindings, Hk).
    split; [done|]. intros optionsJSON. destruct Hl as (_ & _ & Hs).
    unfold setupRuleConfigsWrapper. rewrite Hs. cbn [option_map].
    by rewrite callBinding_Some.
  - intros workspace Hk.
    assert (workspaceLoaded workspaceIndex (bindings w')) as Hl
      by (unfold w'; by rewrite step_bindings, Hk).
    split; [done|]. intros uri. destruct Hl as (_ & Hd).
    unfold destroyWorkspaceWrapper. rewrite Hd. cbn [option_map].
    by rewrite callBinding_Some.
Qed.

End CliExtras.

(** The first [loadPlugin] call throws in the module; [setupRuleConfigs]
    is delegated all the same, and the module was imported once. *)
Example failing_first_call_still_binds :
  let w := run failingPlugins failingWorkspace
             [CallLoadPlugin "/p.js" None false; ImportFulfils 0] (initialWorld []) in
  (setupRuleConfigsWrapper "[]" w).2 = Thrown (Exception (JError "cannot set up")) ∧
  (destroyWorkspaceWrapper "file:///project" w).2 = Thrown AssertionFailed ∧
  importCount pluginsSpecifier (imports w) = 1.
Proof. by vm_compute. Qed.

(** A failed import, then a second try that succeeds. *)
Example rejected_import_then_retry :
  let w := run loggingPlugins loggingWorkspace
             [CallLoadPlugin "/p.js" None false; ImportRejects 0 (JError "ENOENT");
              CallLoadPlugin "/p.js" None false; ImportFulfils 0] (initialWorld []) in
  imports w = [pluginsSpecifier; pluginsSpecifier] ∧ host w = ["loadPlugin /p.js"].
Proof. by vm_compute. Qed.

(** ** More on [loadJsConfigs] *)

Section JsConfigExtras.

Variable getErrorMessage : JsValue → string.
Variable importFile : string → Completion JsValue JsModule.

(** X13. The shape of the result tells its cause: it is the [Failures]
    text exactly when some path failed, the [Success] text exactly when
    every path loaded and the collected entries serialize, and the
    [Error] text exactly when every path loaded and serializing the
    entries throws; a failing path never gives the [Error] text. *)
Theorem loadJsConfigs_shape_by_cause (paths : list string) :
  ∃ text,
    loadJsConfigs getErrorMessage importFile paths = Returned (JStr text) ∧
    ((∃ entries, FailuresText entries text) ↔
     ∃ p reason, p ∈ paths ∧ loadConfig importFile p = Thrown reason) ∧
    ((∃ entries, SuccessText entries text) ↔
     (∀ p, p ∈ paths → ∃ v, loadConfig importFile p = Returned v) ∧
     ∃ v, JSONStringify
            (JObj [("Success", JArr (collected getErrorMessage importFile paths).1)])
          = Returned v) ∧
    ((∃ message, ErrorText message text) ↔
     (∀ p, p ∈ paths → ∃ v, loadConfig importFile p = Returned v) ∧
     ∃ err, JSONStringify
              (JObj [("Success", JArr (collected getErrorMessage importFile paths).1)])
            = Thrown err).
Proof.
  rewrite collected_spec. cbn [fst].
  destruct (decide (failuresOf getErrorMessage importFile paths = [])) as [Hnil|Hne].
  - pose proof (proj1 (failuresOf_nil_iff _ _ _) Hnil) as Hall.
    assert (¬ ∃ p reason, p ∈ paths ∧ loadConfig importFile p = Thrown reason) as Hnofail.
    { intros (p & reason & Hp & Hload). destruct (Hall p Hp) as [v Hv]. congruence. }
    pose proof (loadJsConfigs_successes getErrorMessage importFile paths Hnil) as Hres.
    destruct (JSONStringify (JObj [("Success", JArr (successesOf importFile paths))]))
      as [v|err] eqn:Hser.
    + destruct Hres as (text & Hret & Htext). exists text. split; [done|].
      pose proof (SuccessText_key _ _ Htext) as Hkey.
      split; [|split].
      * split; [|done]. intros [entries Hf%FailuresText_key]. congruence.
      * split; [eauto|]. intros _. eauto.
      * split; [|by intros (_ & err & ?)].
        intros [message He%ErrorText_key]. congruence.
    + destruct Hres as (text & Hret & _ & Htext). exists text. split; [done|].
      pose proof (ErrorText_key _ _ Htext) as Hkey.
      split; [|split].
      * split; [|done]. intros [entries Hf%FailuresText_key]. congruence.
      * split; [|by intros (_ & v & ?)].
        intros [entries Hs%SuccessText_key]. congruence.
      * split; [eauto|]. intros _. eauto.
  - destruct (loadJsConfigs_failures getErrorMessage importFile paths Hne)
      as (text & Hret & Htext).
    exists text. split; [done|].
    pose proof (FailuresText_key _ _ Htext) as Hkey.
    assert (¬ ∀ p, p ∈ paths → ∃ v, loadConfig importFile p = Returned v) as Hnotall.
    { intros Hall. by apply Hne, failuresOf_nil_iff. }
    assert (∃ p reason, p ∈ paths ∧ loadConfig importFile p = Thrown reason) as Hfail.
    { destruct (failuresOf getErrorMessage importFile paths) as [|entry rest] eqn:Hf;
        [done|].
      assert (entry ∈ failuresOf getErrorMessage importFile paths) as Hin
        by (rewrite Hf; left).
      apply elem_of_failuresOf in Hin as (p & reason & Hp & Hload & _). eauto. }
    split; [|split].
    + split; eauto.
    + split; [|by intros [? _]]. intros [entries Hs%SuccessText_key]. congruence.
    + split; [|by intros [? _]]. intros [message He%ErrorText_key]. congruence.
Qed.

(** X14. Every path of the batch ends in exactly one of the two arrays:
    the lengths of [successes] and [errors] add up to the number of
    paths. *)
Theorem collected_accounts_for_every_path (paths : list string) :
  length (collected getErrorMessage importFile paths).1
  + length (collected getErrorMessage importFile paths).2
  = length paths.
Proof.
  rewrite collected_spec. cbn [fst snd]. unfold successesOf, failuresOf.
  induction paths as [|p paths IH]; [done|]. cbn [omap list_omap].
  destruct (loadConfig importFile p); cbn [length]; lia.
Qed.

(** X15. Loading a batch in two parts collects the same: the arrays for
    [ps ++ qs] are the arrays for [ps] followed by the arrays for [qs],
    although the indices of the second part are shifted. *)
Theorem collected_app (ps qs : list string) :
  collected getErrorMessage importFile (ps ++ qs)
  = ((collected getErrorMessage importFile ps).1
       ++ (collected getErrorMessage importFile qs).1,
     (collected getErrorMessage importFile ps).2
       ++ (collected getErrorMessage importFile qs).2).
Proof.
  rewrite !collected_spec. cbn [fst snd]. unfold successesOf, failuresOf.
  by rewrite !omap_app.
Qed.

(** X16. What [loadConfig] accepts: a path whose import fails is rejected
    with the reason of the import; a module is accepted exactly when
    [typeof] of its default export is "object" and the export is not
    [null], so an array is a config and a missing default export or a
    function is not; every rejected export gets the same message, which
    names the path and not the value. *)
Theorem loadConfig_accepts_exactly_objects (path : string) :
  match importFile path with
  | Thrown reason => loadConfig importFile path = Thrown reason
  | Returned m =>
      (typeof (module_default m) = "object" ∧ module_default m ≠ JNull ∧
       loadConfig importFile path = Returned (JsConfigResult path (module_default m))) ∨
      ((typeof (module_default m) ≠ "object" ∨ module_default m = JNull) ∧
       loadConfig importFile path = Thrown (JError (notAnObjectMessage path)))
  end ∧
  (∀ elements,
     importFile path = Returned {| module_default := JArr elements |} →
     loadConfig importFile path = Returned (JsConfigResult path (JArr elements))) ∧
  (∀ v,
     importFile path = Returned {| module_default := v |} →
     v = JUndefined ∨ (∃ name, v = JFunction name) ∨ (∃ b, v = JBool b) →
     loadConfig importFile path = Thrown (JError (notAnObjectMessage path))).
Proof.
  split; [|split].
  - destruct (importFile path) as [m|reason] eqn:Himp; [|by unfold loadConfig; rewrite Himp].
    destruct (decide (typeof (module_default m) = "object")) as [Hty|Hty].
    + assert (module_default m = JNull ∨ module_default m ≠ JNull) as [Hnull|Hnull]
        by (destruct (module_default m); (by left) || (by right)).
      * right. split; [by right|]. apply (loadConfig_not_object _ _ m); auto.
      * left. split; [done|]. split; [done|]. apply loadConfig_Returned. by exists m.
    + right. split; [by left|]. apply (loadConfig_not_object _ _ m); auto.
  - intros elements Himp. apply loadConfig_Returned. by eexists.
  - intros v Himp Hv. apply (loadConfig_not_object _ _ _ Himp). cbn [module_default].
    destruct Hv as [->|[[name ->]|[b ->]]]; by left.
Qed.

End JsConfigExtras.
